(** * gotestlooplint: loop-variable capture in parallel subtests and Ginkgo [It] closures

    A shallow embedding of the analyzer (package [gotestlooplint]:
    [looputils.go] and the analyzer file defining [findIgnoredTests]) together
    with the part of [go/ast], [go/types] and [genesis/slices] it relies on. *)

From Stdlib Require Import List ZArith Bool String Ascii Lia DecimalString.
Import ListNotations.
Open Scope string_scope.
Open Scope Z_scope.
Open Scope list_scope.

Set Implicit Arguments.

(** ** Source positions, identifiers and the syntax tree ([go/token], [go/ast]) *)

(** [token.Pos] is an integer offset; [token.NoPos] is zero. *)
Definition Pos := Z.
Definition NoPos : Pos := 0.
Definition IsValid (p : Pos) : bool := negb (p =? NoPos).

(** [*ast.Ident]: two identifier nodes of one file differ in their position. *)
Record Ident := mkIdent { NamePos : Pos; Name : string }.

(** The node kinds the analyzer looks at are constructors of their own; every
    other kind of [go/ast] node is an [OtherNode] with its position and its
    children in the order [ast.Walk] visits them.  [AssignStmt] carries a
    non-empty left-hand side, as every parsed assignment does. *)
#[warnings="-register-all"]
Inductive Node :=
| NIdent (id : Ident)
| SelectorExpr (X : Node) (Sel : Ident)
| CallExpr (Fun : Node) (Args : list Node)
| FuncLit (Type_ : Node) (Body : Node)
| FuncType (Func : Pos) (Params : option Node) (Results : option Node)
| FieldList (Opening : Pos) (List_ : list Node)
| Field (Names : list Ident) (Type_ : option Node)
| BlockStmt (Lbrace : Pos) (List_ : list Node)
| ExprStmt (X : Node)
| AssignStmt (Lhs0 : Node) (LhsRest : list Node) (Rhs : list Node)
| ForStmt (For : Pos) (Init Cond Post : option Node) (Body : Node)
| RangeStmt (For : Pos) (Key Value : option Node) (X : Node) (Body : Node)
| OtherNode (pos : Pos) (kids : list Node).

(** [Node.Pos()] as [go/ast] computes it. *)
Fixpoint NodePos (n : Node) : Pos :=
  match n with
  | NIdent id => NamePos id
  | SelectorExpr X _ => NodePos X
  | CallExpr Fun _ => NodePos Fun
  | FuncLit ty _ => NodePos ty
  | FuncType Func Params _ =>
      match Params with
      | None => Func
      | Some ps => if IsValid Func then Func else NodePos ps
      end
  | FieldList Opening l =>
      if IsValid Opening then Opening
      else match l with
           | f :: _ => NodePos f
           | [] => NoPos
           end
  | Field Names ty =>
      match Names with
      | id :: _ => NamePos id
      | [] => match ty with
              | Some t => NodePos t
              | None => NoPos
              end
      end
  | BlockStmt Lbrace _ => Lbrace
  | ExprStmt X => NodePos X
  | AssignStmt Lhs0 _ _ => NodePos Lhs0
  | ForStmt For _ _ _ _ => For
  | RangeStmt For _ _ _ _ => For
  | OtherNode pos _ => pos
  end.

Definition optToList (A : Type) (o : option A) : list A :=
  match o with
  | Some a => [a]
  | None => []
  end.

(** The children of a node, in the order [ast.Walk] descends into them. *)
Definition children (n : Node) : list Node :=
  match n with
  | NIdent _ => []
  | SelectorExpr X Sel => [X; NIdent Sel]
  | CallExpr Fun Args => Fun :: Args
  | FuncLit ty Body => [ty; Body]
  | FuncType _ Params Results => optToList Params ++ optToList Results
  | FieldList _ l => l
  | Field Names ty => map NIdent Names ++ optToList ty
  | BlockStmt _ l => l
  | ExprStmt X => [X]
  | AssignStmt Lhs0 LhsRest Rhs => Lhs0 :: LhsRest ++ Rhs
  | ForStmt _ Init Cond Post Body =>
      optToList Init ++ optToList Cond ++ optToList Post ++ [Body]
  | RangeStmt _ Key Value X Body =>
      optToList Key ++ optToList Value ++ [X; Body]
  | OtherNode _ kids => kids
  end.

(** ** Diagnostics, panics and the effect monad

    [pass.Reportf] appends to the diagnostics of the pass; a panic unwinds
    the computation but keeps what was reported before it. *)

Record Diagnostic := mkDiagnostic { DiagPos : Pos; Message : string }.

Inductive PanicValue :=
| PanicIndexOutOfRange (index length : nat)
| PanicNilDereference
| PanicString (s : string).

Inductive Outcome (A : Type) :=
| Returned (a : A)
| Panicked (r : PanicValue).
Arguments Panicked {A} r.

Definition M (A : Type) : Type := (list Diagnostic * Outcome A)%type.

Definition ret (A : Type) (a : A) : M A := ([], Returned a).
Definition panic (A : Type) (r : PanicValue) : M A := ([], Panicked r).
Arguments panic {A} r.
Definition Reportf (p : Pos) (msg : string) : M unit :=
  ([mkDiagnostic p msg], Returned tt).

Definition bind (A B : Type) (m : M A) (k : A -> M B) : M B :=
  match m with
  | (d, Returned a) => (d ++ fst (k a), snd (k a))
  | (d, Panicked r) => (d, Panicked r)
  end.

Declare Scope go_scope.
Delimit Scope go_scope with go.
Notation "x <- m ;; k" := (bind m (fun x => k))
  (at level 61, m at next level, right associativity) : go_scope.
Notation "m ;;; k" := (bind m (fun _ => k))
  (at level 61, right associativity) : go_scope.
Open Scope go_scope.

Definition reported (A : Type) (m : M A) : list Diagnostic := fst m.
Definition outcome (A : Type) (m : M A) : Outcome A := snd m.

(** [defer func() { if r := recover(); r != nil { handler r } }()] around [body]. *)
Definition withRecover (body : M unit) (handler : PanicValue -> M unit) : M unit :=
  match body with
  | (d, Returned tt) => (d, Returned tt)
  | (d, Panicked r) => (d ++ fst (handler r), snd (handler r))
  end.

(** ** [ast.Inspect]

    [ast.Inspect(node, f)] calls [f(node)]; when that returns true it walks
    the children of [node] the same way and then calls [f(nil)]; when it
    returns false the children of [node] are skipped and the walk goes on
    with whatever follows [node].  The closures passed by the analyzer
    assign to captured variables, so the visitor threads a state [S]. *)

Definition Visitor (S : Type) : Type := option Node -> S -> M (bool * S).

Definition visitNil (S : Type) (f : Visitor S) (s : S) : M S :=
  r <- f None s ;; ret (snd r).

Definition walkIdent (S : Type) (f : Visitor S) (id : Ident) (s : S) : M S :=
  r <- f (Some (NIdent id)) s ;;
  if fst r then visitNil f (snd r) else ret (snd r).

Fixpoint walkIdents (S : Type) (f : Visitor S) (l : list Ident) (s : S) : M S :=
  match l with
  | [] => ret s
  | id :: t => s' <- walkIdent f id s ;; walkIdents f t s'
  end.

Fixpoint Inspect (S : Type) (f : Visitor S) (n : Node) (s : S) {struct n} : M S :=
  let walkL :=
    fix walkL (l : list Node) (s : S) {struct l} : M S :=
      match l with
      | [] => ret s
      | x :: t => s' <- Inspect f x s ;; walkL t s'
      end in
  let walkO (o : option Node) (s : S) : M S :=
    match o with
    | Some x => Inspect f x s
    | None => ret s
    end in
  r <- f (Some n) s ;;
  if fst r then
    s1 <- match n with
          | NIdent _ => ret (snd r)
          | SelectorExpr X Sel =>
              s' <- Inspect f X (snd r) ;; walkIdent f Sel s'
          | CallExpr Fun Args =>
              s' <- Inspect f Fun (snd r) ;; walkL Args s'
          | FuncLit ty Body =>
              s' <- Inspect f ty (snd r) ;; Inspect f Body s'
          | FuncType _ Params Results =>
              s' <- walkO Params (snd r) ;; walkO Results s'
          | FieldList _ l => walkL l (snd r)
          | Field Names ty =>
              s' <- walkIdents f Names (snd r) ;; walkO ty s'
          | BlockStmt _ l => walkL l (snd r)
          | ExprStmt X => Inspect f X (snd r)
          | AssignStmt Lhs0 LhsRest Rhs =>
              s' <- Inspect f Lhs0 (snd r) ;;
              s'' <- walkL LhsRest s' ;; walkL Rhs s''
          | ForStmt _ Init Cond Post Body =>
              s' <- walkO Init (snd r) ;;
              s'' <- walkO Cond s' ;;
              s''' <- walkO Post s'' ;; Inspect f Body s'''
          | RangeStmt _ Key Value X Body =>
              s' <- walkO Key (snd r) ;;
              s'' <- walkO Value s' ;;
              s''' <- Inspect f X s'' ;; Inspect f Body s'''
          | OtherNode _ kids => walkL kids (snd r)
          end ;;
    visitNil f s1
  else ret (snd r).

(** [walkList] of [go/ast]: the nodes of a list one after the other. *)
Fixpoint walkList (S : Type) (f : Visitor S) (l : list Node) (s : S) : M S :=
  match l with
  | [] => ret s
  | x :: t => s' <- Inspect f x s ;; walkList f t s'
  end.

(** The nodes of a tree in depth-first pre-order: the order in which
    [ast.Inspect] meets them and in which [inspector.Preorder] lists them. *)
Fixpoint preorder (n : Node) : list Node :=
  let preL :=
    fix preL (l : list Node) : list Node :=
      match l with
      | [] => []
      | x :: t => preorder x ++ preL t
      end in
  let preO (o : option Node) : list Node :=
    match o with
    | Some x => preorder x
    | None => []
    end in
  n :: match n with
       | NIdent _ => []
       | SelectorExpr X Sel => preorder X ++ [NIdent Sel]
       | CallExpr Fun Args => preorder Fun ++ preL Args
       | FuncLit ty Body => preorder ty ++ preorder Body
       | FuncType _ Params Results => preO Params ++ preO Results
       | FieldList _ l => preL l
       | Field Names ty => map NIdent Names ++ preO ty
       | BlockStmt _ l => preL l
       | ExprStmt X => preorder X
       | AssignStmt Lhs0 LhsRest Rhs => preorder Lhs0 ++ preL LhsRest ++ preL Rhs
       | ForStmt _ Init Cond Post Body =>
           preO Init ++ preO Cond ++ preO Post ++ preorder Body
       | RangeStmt _ Key Value X Body =>
           preO Key ++ preO Value ++ preorder X ++ preorder Body
       | OtherNode _ kids => preL kids
       end.

(** The identifier nodes of a tree, in document order. *)
Definition identsOf (n : Node) : list Ident :=
  flat_map (fun x => match x with NIdent id => [id] | _ => [] end) (preorder n).

(** [*ast.CallExpr] and [*ast.FuncLit] values held by the analyzer. *)
Record CallExprNode := mkCall { CallFun : Node; CallArgs : list Node }.
Record FuncLitNode := mkFuncLit { FuncLitType : Node; FuncLitBody : Node }.

Definition callNode (c : CallExprNode) : Node := CallExpr (CallFun c) (CallArgs c).
Definition funcLitNode (c : FuncLitNode) : Node := FuncLit (FuncLitType c) (FuncLitBody c).

(** ** [go/types]: objects and the tables of the pass

    A [types.Object] is compared by identity, never by name.  [Objects] is
    the union of [TypesInfo.Defs] and [TypesInfo.Uses]; [TypeString obj] is
    [obj.Type().String()] and [PkgPath obj] is the path of [obj.Pkg()], which
    is nil for objects of the universe scope. *)
Definition Object := nat.

Record Pass := mkPass {
  Objects : Ident -> option Object;
  TypeString : Object -> string;
  PkgPath : Object -> option string
}.

(** [pass.TypesInfo.ObjectOf]: a map lookup, nil for a nil identifier. *)
Definition ObjectOf (pass : Pass) (id : option Ident) : option Object :=
  match id with
  | Some i => Objects pass i
  | None => None
  end.

(** [identifierObject == loopVarObject] on interface values. *)
Definition Object_eqb (a b : option Object) : bool :=
  match a, b with
  | Some x, Some y => Nat.eqb x y
  | None, None => true
  | _, _ => false
  end.

(** ** [github.com/life4/genesis/slices] *)
Module slices.
Definition Map (A B : Type) (items : list A) (f : A -> B) : list B :=
  List.map f items.
Definition Filter (A : Type) (items : list A) (f : A -> bool) : list A :=
  List.filter f items.
Definition Reject (A : Type) (items : list A) (f : A -> bool) : list A :=
  List.filter (fun x => negb (f x)) items.
Definition Any (A : Type) (items : list A) (f : A -> bool) : bool :=
  List.existsb f items.
End slices.

(** ** looputils.go *)

Definition getLoopBody (loopNode : Node) : option Node :=
  match loopNode with
  | ForStmt _ _ _ _ Body => Some Body
  | RangeStmt _ _ _ _ Body => Some Body
  | _ => None
  end.

(** An [ast.Expr] may be the nil interface, which takes the default branch. *)
Definition exprToIdent (expr : option Node) : option Ident :=
  match expr with
  | Some (NIdent id) => Some id
  | Some (SelectorExpr _ Sel) => Some Sel
  | _ => None
  end.

Definition isNonNilExpr (expr : option Node) : bool :=
  match expr with
  | Some _ => true
  | None => false
  end.

Definition isNilIdent (ident : option Ident) : bool :=
  match ident with
  | Some _ => false
  | None => true
  end.

Definition getLoopVarsIdentifiers (loopNode : Node) : M (list (option Ident)) :=
  match loopNode with
  | ForStmt _ Init _ _ _ =>
      match Init with
      | Some (AssignStmt Lhs0 LhsRest _) =>
          ret (slices.Reject
                 (slices.Map (map (@Some Node) (Lhs0 :: LhsRest)) exprToIdent)
                 isNilIdent)
      | _ => ret []
      end
  | RangeStmt _ Key Value _ _ =>
      ret (slices.Map (slices.Filter [Key; Value] isNonNilExpr) exprToIdent)
  | _ => panic (PanicString "unexpected node type")
  end.

(** ** The analyzer *)

Definition goTestFailureMessageFormat (a b : string) : string :=
  ("loop variable `" ++ a ++ "` used directly inside parallel test closure. This could lead to tests not running as expected. Try aliasing `" ++ b ++ "` to a variable outside the closure")%string.

Definition ginkgoFailureMessageFormat (a b : string) : string :=
  ("loop variable `" ++ a ++ "` used directly inside ginkgo It closure. This could lead to tests not running as expected. Try aliasing `" ++ b ++ "` to a variable outside the closure")%string.

(** The text [%s] prints for a recovered panic value. *)
Definition panicText (r : PanicValue) : string :=
  match r with
  | PanicIndexOutOfRange i n =>
      ("runtime error: index out of range ["
         ++ NilZero.string_of_uint (Nat.to_uint i)
         ++ "] with length " ++ NilZero.string_of_uint (Nat.to_uint n))%string
  | PanicNilDereference =>
      "runtime error: invalid memory address or nil pointer dereference"
  | PanicString s => s
  end.

Definition newline : string := String (ascii_of_nat 10) EmptyString.

Definition panicMessageFormat (r : PanicValue) : string :=
  ("panic: " ++ panicText r ++ newline)%string.

(** The closure [findTestingTCalls] hands to [ast.Inspect]; its state is the
    captured variable [matchingCallExpression]. *)
Definition findTestingTCallsVisit (pass : Pass) (methodName : string)
  : Visitor (option CallExprNode) :=
  fun descendantNode matchingCallExpression =>
    match descendantNode with
    | Some (CallExpr (SelectorExpr (NIdent callExpressionFunctionX) Sel as Fun) Args) =>
        match ObjectOf pass (Some callExpressionFunctionX) with
        | None => panic PanicNilDereference
        | Some obj =>
            if String.eqb (TypeString pass obj) "*testing.T"
               && String.eqb (Name Sel) methodName
            then ret (false, Some (mkCall Fun Args))
            else ret (true, matchingCallExpression)
        end
    | _ => ret (true, matchingCallExpression)
    end.

Definition findTestingTCalls (pass : Pass) (rootNode : Node) (methodName : string)
  : M (option CallExprNode) :=
  Inspect (findTestingTCallsVisit pass methodName) rootNode None.

Definition isGinkgoIdentifier (pass : Pass) (identifier : Ident) : M bool :=
  match ObjectOf pass (Some identifier) with
  | None => panic PanicNilDereference
  | Some obj =>
      match PkgPath pass obj with
      | None => panic PanicNilDereference
      | Some packagePath =>
          ret (String.eqb packagePath "github.com/onsi/ginkgo/v2"
               || String.eqb packagePath "github.com/onsi/ginkgo")
      end
  end.

(** The callee identifier [findGinkgoItCalls] selects: [Sel] of a selector,
    or a bare identifier; no identifier for any other callee. *)
Definition callIdentifierOf (callExpressionFunction : Node) : option Ident :=
  match callExpressionFunction with
  | SelectorExpr _ Sel => Some Sel
  | NIdent id => Some id
  | _ => None
  end.

Definition findGinkgoItCallsVisit (pass : Pass) : Visitor (option CallExprNode) :=
  fun descendantNode matchingCallExpression =>
    match descendantNode with
    | Some (CallExpr Fun Args) =>
        match callIdentifierOf Fun with
        | None => ret (true, matchingCallExpression)
        | Some callIdentifier =>
            if String.eqb (Name callIdentifier) "It" then
              isGinkgo <- isGinkgoIdentifier pass callIdentifier ;;
              if isGinkgo then ret (false, Some (mkCall Fun Args))
              else ret (true, matchingCallExpression)
            else ret (true, matchingCallExpression)
        end
    | _ => ret (true, matchingCallExpression)
    end.

Definition findGinkgoItCalls (pass : Pass) (rootNode : Node) : M (option CallExprNode) :=
  Inspect (findGinkgoItCallsVisit pass) rootNode None.

Definition isParallelFunctionClosure (pass : Pass) (closure : FuncLitNode) : M (option Pos) :=
  parallelCall <- findTestingTCalls pass (FuncLitBody closure) "Parallel" ;;
  match parallelCall with
  | Some c => ret (Some (NodePos (callNode c)))
  | None => ret None
  end.

Definition getLoopNodeIdentifiersObjects (pass : Pass) (loopNode : Node)
  : M (list (option Object)) :=
  idents <- getLoopVarsIdentifiers loopNode ;;
  ret (slices.Map idents (ObjectOf pass)).

(** [runCall.Args[1]] asserted to be a function literal: indexing panics
    when there is no second argument. *)
Definition getSubtestClosure (runCall : CallExprNode) : M (option FuncLitNode) :=
  match nth_error (CallArgs runCall) 1 with
  | None => panic (PanicIndexOutOfRange 1 (List.length (CallArgs runCall)))
  | Some (FuncLit ty body) => ret (Some (mkFuncLit ty body))
  | Some _ => ret None
  end.

Definition checkAndReportLoopIdentifierObject (pass : Pass)
    (loopVarsIdentifiersObjects : list (option Object)) (node : option Node)
    (message : string -> string -> string) : M bool :=
  match node with
  | Some (NIdent identifier) =>
      let identifierObject := ObjectOf pass (Some identifier) in
      if slices.Any loopVarsIdentifiersObjects
           (fun loopVarObject => Object_eqb identifierObject loopVarObject)
      then
        let name := Name identifier in
        Reportf (NamePos identifier) (message name name) ;;;
        ret false
      else ret true
  | _ => ret true
  end.

(** A loop body handed to a call finder; a nil [*ast.BlockStmt] faults in
    [ast.Walk]. *)
Definition loopBodyOrFault (loopNode : Node) : M Node :=
  match getLoopBody loopNode with
  | Some body => ret body
  | None => panic PanicNilDereference
  end.

Definition checkAndReportLoopVisit (pass : Pass)
    (loopVarsIdentifiersObjects : list (option Object)) (parallelTokenPos : Pos)
  : Visitor unit :=
  fun closureDescendantNode _ =>
    match closureDescendantNode with
    | None => ret (true, tt)
    | Some n =>
        if NodePos n <=? parallelTokenPos then ret (true, tt)
        else
          b <- checkAndReportLoopIdentifierObject pass loopVarsIdentifiersObjects
                 closureDescendantNode goTestFailureMessageFormat ;;
          ret (b, tt)
    end.

Definition checkAndReportLoop (pass : Pass) (loopNode : Node) : M unit :=
  loopVarsIdentifiersObjects <- getLoopNodeIdentifiersObjects pass loopNode ;;
  body <- loopBodyOrFault loopNode ;;
  runCall <- findTestingTCalls pass body "Run" ;;
  match runCall with
  | None => ret tt
  | Some runCall =>
      closure <- getSubtestClosure runCall ;;
      match closure with
      | None => ret tt
      | Some closure =>
          parallelTokenPos <- isParallelFunctionClosure pass closure ;;
          match parallelTokenPos with
          | None => ret tt
          | Some parallelTokenPos =>
              Inspect (checkAndReportLoopVisit pass loopVarsIdentifiersObjects
                         parallelTokenPos) (funcLitNode closure) tt
          end
      end
  end.

Definition checkAndReportLoopGinkgoVisit (pass : Pass)
    (loopVarsIdentifiersObjects : list (option Object)) : Visitor unit :=
  fun closureDescendantNode _ =>
    b <- checkAndReportLoopIdentifierObject pass loopVarsIdentifiersObjects
           closureDescendantNode ginkgoFailureMessageFormat ;;
    ret (b, tt).

Definition checkAndReportLoopGinkgo (pass : Pass) (loopNode : Node) : M unit :=
  loopVarsIdentifiersObjects <- getLoopNodeIdentifiersObjects pass loopNode ;;
  body <- loopBodyOrFault loopNode ;;
  ginkgoItCall <- findGinkgoItCalls pass body ;;
  match ginkgoItCall with
  | None => ret tt
  | Some ginkgoItCall =>
      closure <- getSubtestClosure ginkgoItCall ;;
      match closure with
      | None => ret tt
      | Some closure =>
          Inspect (checkAndReportLoopGinkgoVisit pass loopVarsIdentifiersObjects)
            (funcLitNode closure) tt
      end
  end.

Definition isLoop (n : Node) : bool :=
  match n with
  | ForStmt _ _ _ _ _ => true
  | RangeStmt _ _ _ _ _ => true
  | _ => false
  end.

(** The function literal [findIgnoredTests] runs on every loop node. *)
Definition checkLoopNode (pass : Pass) (loopNode : Node) : M unit :=
  withRecover
    (checkAndReportLoop pass loopNode ;;; checkAndReportLoopGinkgo pass loopNode)
    (fun r => Reportf (NodePos loopNode) (panicMessageFormat r)).

Fixpoint forEach (A : Type) (f : A -> M unit) (l : list A) : M unit :=
  match l with
  | [] => ret tt
  | x :: t => f x ;;; forEach f t
  end.

(** [inspector.Preorder] with the two loop kinds as filter, over the files
    of the pass. *)
Definition findIgnoredTests (pass : Pass) (files : list Node) : M unit :=
  forEach (checkLoopNode pass) (filter isLoop (flat_map preorder files)).

(** The walk of the children, as [Inspect] performs it. *)
Definition walkChildren (S : Type) (f : Visitor S) (n : Node) (s : S) : M S :=
  walkList f (children n) s.

(** ** Vocabulary of the statements *)

Definition goTestDiagnostic (id : Ident) : Diagnostic :=
  mkDiagnostic (NamePos id) (goTestFailureMessageFormat (Name id) (Name id)).

Definition ginkgoDiagnostic (id : Ident) : Diagnostic :=
  mkDiagnostic (NamePos id) (ginkgoFailureMessageFormat (Name id) (Name id)).

Definition panicDiagnostic (loopNode : Node) (r : PanicValue) : Diagnostic :=
  mkDiagnostic (NodePos loopNode) (panicMessageFormat r).

(** The identifier resolves to one of the objects the loop binds. *)
Definition isLoopVar (pass : Pass) (objs : list (option Object)) (id : Ident) : bool :=
  existsb (fun loopVarObject => Object_eqb (Objects pass id) loopVarObject) objs.

(** The condition under which [findTestingTCalls] stores a call. *)
Definition isTestingTCall (pass : Pass) (methodName : string) (x : Node) : bool :=
  match x with
  | CallExpr (SelectorExpr (NIdent recv) Sel) _ =>
      match Objects pass recv with
      | Some obj =>
          String.eqb (TypeString pass obj) "*testing.T"
          && String.eqb (Name Sel) methodName
      | None => false
      end
  | _ => false
  end.

Definition ginkgoPaths : list string :=
  ["github.com/onsi/ginkgo/v2"; "github.com/onsi/ginkgo"].

(** The condition under which [findGinkgoItCalls] stores a call. *)
Definition isGinkgoItCall (pass : Pass) (x : Node) : bool :=
  match x with
  | CallExpr Fun _ =>
      match callIdentifierOf Fun with
      | Some id =>
          String.eqb (Name id) "It"
          && match Objects pass id with
             | Some obj =>
                 match PkgPath pass obj with
                 | Some path =>
                     existsb (String.eqb path) ginkgoPaths
                 | None => false
                 end
             | None => false
             end
      | None => false
      end
  | _ => false
  end.

(** What the visitor of [checkAndReportLoop] reports at one node, given the
    position of the parallel marker, and what the visitor of
    [checkAndReportLoopGinkgo] reports there. *)
Definition subtestReport (pass : Pass) (objs : list (option Object)) (marker : Pos)
    (x : Node) : list Diagnostic :=
  match x with
  | NIdent id =>
      if (marker <? NamePos id) && isLoopVar pass objs id
      then [goTestDiagnostic id] else []
  | _ => []
  end.

Definition ginkgoReport (pass : Pass) (objs : list (option Object)) (x : Node)
  : list Diagnostic :=
  match x with
  | NIdent id => if isLoopVar pass objs id then [ginkgoDiagnostic id] else []
  | _ => []
  end.

(** The identifiers of a closure that refer to a loop variable, and those
    of them that lie after the parallel marker. *)
Definition capturedIdents (pass : Pass) (objs : list (option Object)) (closure : Node)
  : list Ident :=
  filter (isLoopVar pass objs) (identsOf closure).

Definition capturedIdentsAfter (pass : Pass) (objs : list (option Object))
    (marker : Pos) (closure : Node) : list Ident :=
  filter (fun id => (marker <? NamePos id) && isLoopVar pass objs id)
    (identsOf closure).

(** The loop nodes of the files, in the order the analyzer meets them. *)
Definition loopsOf (files : list Node) : list Node :=
  filter isLoop (flat_map preorder files).

(** *** The specification's wording, for comparison with the code *)

(** Following the spec's words: the first matching call in document order. *)
Definition specFirstCall (matches : Node -> bool) (root : Node) : option Node :=
  find matches (preorder root).

(** The closure's own test-context parameter: the first name of the first
    parameter field of the function literal. *)
Definition closureParameter (closure : FuncLitNode) : option Ident :=
  match FuncLitType closure with
  | FuncType _ (Some (FieldList _ (Field (id :: _) _ :: _))) _ => Some id
  | _ => None
  end.

(** Following the spec's words: a call whose receiver is the closure's own
    parameter, whose selected member is [Parallel], taking zero arguments. *)
Definition specIsParallelMarker (pass : Pass) (closure : FuncLitNode) (x : Node) : bool :=
  match x with
  | CallExpr (SelectorExpr (NIdent recv) Sel) [] =>
      match closureParameter closure with
      | Some param =>
          String.eqb (Name Sel) "Parallel"
          && match Objects pass recv, Objects pass param with
             | Some a, Some b => Nat.eqb a b
             | _, _ => false
             end
      | None => false
      end
  | _ => false
  end.

Definition specParallelMarker (pass : Pass) (closure : FuncLitNode) : option Pos :=
  option_map NodePos
    (specFirstCall (specIsParallelMarker pass closure) (FuncLitBody closure)).

(** Following the spec's words: a binding that is present and not the blank
    identifier. *)
Definition isDiscarded (binding : option Node) : bool :=
  match binding with
  | Some (NIdent id) => String.eqb (Name id) "_"
  | Some _ => false
  | None => true
  end.

Definition specCollectionLoopVars (Key Value : option Node) : list (option Ident) :=
  map exprToIdent (filter (fun b => negb (isDiscarded b)) [Key; Value]).

(** *** Conditions on a tree under which the call finders do not fault *)

(** The receiver of a call [recv.m(...)] has an object; true of every other
    node. *)
Definition receiverResolves (pass : Pass) (x : Node) : bool :=
  match x with
  | CallExpr (SelectorExpr (NIdent recv) _) _ =>
      match Objects pass recv with
      | Some _ => true
      | None => false
      end
  | _ => true
  end.

(** The callee identifier of a call, when it is named [It], has an object
    that has a package; true of every other node. *)
Definition itCalleeResolves (pass : Pass) (x : Node) : bool :=
  match x with
  | CallExpr Fun _ =>
      match callIdentifierOf Fun with
      | Some id =>
          if String.eqb (Name id) "It" then
            match Objects pass id with
            | Some obj =>
                match PkgPath pass obj with
                | Some _ => true
                | None => false
                end
            | None => false
            end
          else true
      | None => true
      end
  | _ => true
  end.

(** No node of the tree meets the condition. *)
Definition noneOf (matches : Node -> bool) (root : Node) : bool :=
  forallb (fun x => negb (matches x)) (preorder root).

(** The identifiers a counting loop binds: those of the left-hand sides
    that are identifiers or selectors, in order. *)
Definition lhsIdents (lhs : list Node) : list Ident :=
  flat_map (fun e => optToList (exprToIdent (Some e))) lhs.

(** ** Example programs *)
Module Examples.

Definition ident (p : Pos) (name : string) : Node := NIdent (mkIdent p name).

(** Objects of the examples: 1 is the test context of the enclosing test,
    2 and 3 the loop variables [i] and [v], 4 the subtest's own test
    context, 5 the function [use], 6 Ginkgo's [It], 7 [items], 8 [name],
    9 a local [v] declared inside a closure, 10 a function [It] of another
    package, 11 the blank key of a range clause. *)
Definition typeOf (obj : Object) : string :=
  match obj with
  | 1%nat | 4%nat => "*testing.T"
  | _ => "int"
  end.

Definition pkgOf (obj : Object) : option string :=
  match obj with
  | 6%nat => Some "github.com/onsi/ginkgo/v2"
  | _ => Some "example.com/pkg"
  end.

(** Resolution by name, with the positions at which a name denotes
    something else than usual: a [t] at a position from 40 to 69 or from
    140 to 169 is the subtest's parameter, a [v] from 300 on is the local
    variable of a closure, an [It] from 400 on belongs to another package. *)
Definition resolve (id : Ident) : option Object :=
  let p := NamePos id in
  let name := Name id in
  if String.eqb name "t" then
    if ((40 <=? p) && (p <? 70)) || ((140 <=? p) && (p <? 170))
    then Some 4%nat else Some 1%nat
  else if String.eqb name "i" then Some 2%nat
  else if String.eqb name "v" then (if 300 <=? p then Some 9%nat else Some 3%nat)
  else if String.eqb name "use" then Some 5%nat
  else if String.eqb name "It" then (if 400 <=? p then Some 10%nat else Some 6%nat)
  else if String.eqb name "items" then Some 7%nat
  else if String.eqb name "name" then Some 8%nat
  else if String.eqb name "_" then Some 11%nat
  else None.

Definition pass : Pass := mkPass resolve typeOf pkgOf.

(** [func(t *testing.T) { <stmts> }] starting at offset [off]. *)
Definition subtestClosureLit (off : Pos) (stmts : list Node) : FuncLitNode :=
  mkFuncLit
    (FuncType (off + 41)
       (Some (FieldList (off + 45)
                [Field [mkIdent (off + 47) "t"]
                   (Some (OtherNode (off + 49)
                            [SelectorExpr (ident (off + 50) "testing")
                               (mkIdent (off + 58) "T")]))]))
       None)
    (BlockStmt (off + 59) stmts).
(** [recv.Parallel()] and [use(v)] at given positions. *)
Definition parallelCall (p : Pos) : Node :=
  ExprStmt (CallExpr (SelectorExpr (ident p "t") (mkIdent (p + 2) "Parallel")) []).
Definition useV (p : Pos) : Node :=
  ExprStmt (CallExpr (ident p "use") [ident (p + 4) "v"]).

(** [t.Run(name, func(t *testing.T) { t.Parallel(); use(v) })] *)
Definition parallelClosureLit (off : Pos) : FuncLitNode :=
  subtestClosureLit off [parallelCall (off + 60); useV (off + 75)].
Definition runCall (off : Pos) : CallExprNode :=
  mkCall (SelectorExpr (ident (off + 30) "t") (mkIdent (off + 32) "Run"))
    [ident (off + 36) "name"; funcLitNode (parallelClosureLit off)].
Definition runCallExpr (off : Pos) : Node := callNode (runCall off).

Definition rangeLoop (key : string) (stmts : list Node) : Node :=
  RangeStmt 5 (Some (ident 10 key)) (Some (ident 13 "v")) (ident 20 "items")
    (BlockStmt 25 stmts).

(** [for i, v := range items { t.Run(name, func(t *testing.T) { t.Parallel(); use(v) }) }] *)
Definition parallelLoop : Node := rangeLoop "i" [ExprStmt (runCallExpr 0)].

(** The same loop with two subtests, one after the other. *)
Definition twoRunsBody : Node :=
  BlockStmt 25 [ExprStmt (runCallExpr 0); ExprStmt (runCallExpr 100)].
Definition twoRunsLoop : Node :=
  rangeLoop "i" [ExprStmt (runCallExpr 0); ExprStmt (runCallExpr 100)].

(** [It("desc", func() { use(v) })] with [It] at position [p]. *)
Definition itClosureLit (p : Pos) (usePos : Pos) : FuncLitNode :=
  mkFuncLit (FuncType (p + 10) (Some (FieldList (p + 14) [])) None)
    (BlockStmt (p + 17) [useV usePos]).
Definition itCall (p : Pos) (usePos : Pos) : CallExprNode :=
  mkCall (ident p "It") [OtherNode (p + 3) []; funcLitNode (itClosureLit p usePos)].
Definition itCallExpr (p : Pos) (usePos : Pos) : Node := callNode (itCall p usePos).

Definition ginkgoLoop : Node := rangeLoop "i" [ExprStmt (itCallExpr 200 220)].

(** Two spec registrations, one after the other. *)
Definition twoItsBody : Node :=
  BlockStmt 25 [ExprStmt (itCallExpr 200 220); ExprStmt (itCallExpr 240 260)].

(** [for i, v := range items { t.Run("name"); It("desc", func() { use(v) }) }] *)
Definition oneArgRunCall : CallExprNode :=
  mkCall (SelectorExpr (ident 30 "t") (mkIdent 32 "Run")) [OtherNode 36 []].
Definition oneArgRunLoop : Node :=
  rangeLoop "i" [ExprStmt (callNode oneArgRunCall); ExprStmt (itCallExpr 200 220)].

(** [func(t *testing.T) { t.Parallel(1); use(v) }] where the receiver of
    [Parallel], at position 90, is the test context of the enclosing
    test, not the closure's parameter. *)
Definition outerParallelClosure : FuncLitNode :=
  mkFuncLit
    (FuncType 41
       (Some (FieldList 45
                [Field [mkIdent 47 "t"]
                   (Some (OtherNode 49
                            [SelectorExpr (ident 50 "testing") (mkIdent 58 "T")]))]))
       None)
    (BlockStmt 59
       [ExprStmt (CallExpr (SelectorExpr (ident 90 "t") (mkIdent 92 "Parallel"))
                    [OtherNode 101 []]);
        useV 110]).

(** A closure whose [v] is a local of its own: [func() { v := 1; use(v) }]. *)
Definition shadowClosure : Node :=
  FuncLit (FuncType 290 (Some (FieldList 294 [])) None)
    (BlockStmt 297
       [AssignStmt (ident 300 "v") [] [OtherNode 305 []]; useV 310]).

(** [for _, v := range items { ... }] and [for _, _ = range items { ... }] *)
Definition blankKeyLoop : Node := rangeLoop "_" [ExprStmt (runCallExpr 0)].
Definition blankBothLoop : Node :=
  RangeStmt 5 (Some (ident 10 "_")) (Some (ident 13 "_")) (ident 20 "items")
    (BlockStmt 25 []).

(** [for ; ; { }]: a counting loop without initializer. *)
Definition bareForLoop : Node := ForStmt 5 None None None (BlockStmt 9 []).

(** [for range items { t.Run(name, func(t *testing.T) { t.Parallel(); use(v) }) }]:
    a loop that binds nothing, around a closure that uses a [v] from
    outside. *)
Definition noVarsLoop : Node :=
  RangeStmt 5 None None (ident 20 "items") (BlockStmt 25 [ExprStmt (runCallExpr 0)]).

(** [for i, v := range items { t.Run(name, use) }]: the second argument is
    a named function, not a function literal. *)
Definition namedFuncRunCall : CallExprNode :=
  mkCall (SelectorExpr (ident 30 "t") (mkIdent 32 "Run"))
    [ident 36 "name"; ident 42 "use"].
Definition namedFuncLoop : Node := rangeLoop "i" [ExprStmt (callNode namedFuncRunCall)].

(** [for i, v := range items { use(v) }]: neither a subtest nor a spec. *)
Definition plainLoop : Node := rangeLoop "i" [useV 30].

(** A file with the parallel loop nested in a counting loop. *)
Definition nestedFile : Node :=
  OtherNode 1 [ForStmt 2 None None None (BlockStmt 3 [parallelLoop])].

(** [for i, j := 0, 1; ; { }] *)
Definition countingLoop : Node :=
  ForStmt 5 (Some (AssignStmt (ident 9 "i") [ident 12 "j"]
                     [OtherNode 17 []; OtherNode 20 []]))
    None None (BlockStmt 25 []).

(** A subtest with a subtest of its own:
    [for i, v := range items {
       t.Run(name, func(t *testing.T) {
         t.Parallel(); use(v)
         t.Run(name, func(t *testing.T) { t.Parallel() }) }) }].
    The [t] at position 30 is the test context of the enclosing test
    (object 1), the [t] from 40 to 99 the parameter of the subtest
    (object 4), the [t] from 100 on the parameter of the inner subtest
    (object 12); all three have type [*testing.T]. *)
Definition nestedTypeOf (obj : Object) : string :=
  match obj with
  | 1%nat | 4%nat | 12%nat => "*testing.T"
  | _ => "int"
  end.

Definition nestedResolve (id : Ident) : option Object :=
  if String.eqb (Name id) "t" then
    if NamePos id <? 40 then Some 1%nat
    else if NamePos id <? 100 then Some 4%nat
    else Some 12%nat
  else resolve id.

Definition nestedPass : Pass := mkPass nestedResolve nestedTypeOf pkgOf.

Definition innerRunCall : CallExprNode :=
  mkCall (SelectorExpr (ident 90 "t") (mkIdent 92 "Run"))
    [ident 96 "name"; funcLitNode (subtestClosureLit 60 [parallelCall 120])].

Definition nestedClosureLit : FuncLitNode :=
  subtestClosureLit 0 [parallelCall 60; useV 75; ExprStmt (callNode innerRunCall)].

Definition nestedRunCall : CallExprNode :=
  mkCall (SelectorExpr (ident 30 "t") (mkIdent 32 "Run"))
    [ident 36 "name"; funcLitNode nestedClosureLit].

Definition nestedSubtestBody : Node := BlockStmt 25 [ExprStmt (callNode nestedRunCall)].
Definition nestedSubtestLoop : Node := rangeLoop "i" [ExprStmt (callNode nestedRunCall)].

(** [for i, v := range items {
       t.Run(name, func(t *testing.T) { use(v); t.Parallel(); use(v) }) }]:
    the loop variable is used before and after the marker. *)
Definition beforeAfterClosureLit : FuncLitNode :=
  subtestClosureLit 0 [useV 60; parallelCall 66; useV 80].
Definition beforeAfterRunCall : CallExprNode :=
  mkCall (SelectorExpr (ident 30 "t") (mkIdent 32 "Run"))
    [ident 36 "name"; funcLitNode beforeAfterClosureLit].
Definition beforeAfterLoop : Node := rangeLoop "i" [ExprStmt (callNode beforeAfterRunCall)].

(** A pass in which the blank identifier of an assignment has no object,
    as [go/types] records it. *)
Definition resolveAssigned (id : Ident) : option Object :=
  if String.eqb (Name id) "_" then None else resolve id.

Definition assignPass : Pass := mkPass resolveAssigned typeOf pkgOf.

(** [It("desc", func() { _ = v })] with [It] at position 200. *)
Definition blankUseClosure : Node :=
  FuncLit (FuncType 210 (Some (FieldList 214 [])) None)
    (BlockStmt 217 [AssignStmt (ident 220 "_") [] [ident 224 "v"]]).
Definition blankUseItCall : Node :=
  CallExpr (ident 200 "It") [OtherNode 203 []; blankUseClosure].

(** [for _, v = range items { It("desc", func() { _ = v }) }]: the key is
    a blank identifier that is assigned, not declared. *)
Definition blankAssignLoop : Node :=
  RangeStmt 5 (Some (ident 10 "_")) (Some (ident 13 "v")) (ident 20 "items")
    (BlockStmt 25 [ExprStmt blankUseItCall]).

(** [for a[0] = range items { It("desc", func() { _ = 1 }) }]: the key is an
    index expression, the closure refers to no loop variable. *)
Definition indexKeyLoop : Node :=
  RangeStmt 5 (Some (OtherNode 9 [OtherNode 9 []; OtherNode 11 []])) None
    (ident 20 "items")
    (BlockStmt 25
       [ExprStmt
          (CallExpr (ident 200 "It")
             [OtherNode 203 [];
              FuncLit (FuncType 210 (Some (FieldList 214 [])) None)
                (BlockStmt 217 [AssignStmt (ident 220 "_") [] [OtherNode 224 []]])])]).


(** A call of an [It] declared in another package. *)
Definition foreignItCall : Node := itCallExpr 400 420.

End Examples.

(** * Properties *)

(** ** The effect monad *)

Lemma bind_ret_l (A B : Type) (a : A) (k : A -> M B) :
  (x <- ret a ;; k x) = k a.
Proof. unfold bind, ret. simpl. destruct (k a); reflexivity. Qed.

Lemma bind_ret_r (A : Type) (m : M A) : (x <- m ;; ret x) = m.
Proof.
  destruct m as [d [a | r]]; simpl; [rewrite app_nil_r|]; reflexivity.
Qed.

Lemma bind_assoc (A B C : Type) (m : M A) (f : A -> M B) (g : B -> M C) :
  (y <- (x <- m ;; f x) ;; g y) = (x <- m ;; y <- f x ;; g y).
Proof.
  destruct m as [d [a | r]]; simpl; [|reflexivity].
  destruct (f a) as [d1 [b | r1]]; simpl; [|reflexivity].
  rewrite app_assoc. reflexivity.
Qed.

Lemma bind_ext (A B : Type) (m : M A) (k1 k2 : A -> M B) :
  (forall a, k1 a = k2 a) -> (x <- m ;; k1 x) = (x <- m ;; k2 x).
Proof.
  intros H. destruct m as [d [a | r]]; [|reflexivity].
  cbn [bind]. rewrite H. reflexivity.
Qed.

(** A computation that returns splits into its two halves. *)
Lemma bind_inv_returned (A B : Type) (m : M A) (k : A -> M B) d b :
  bind m k = (d, Returned b) ->
  exists d1 a d2, m = (d1, Returned a) /\ k a = (d2, Returned b) /\ d = d1 ++ d2.
Proof.
  destruct m as [d1 [a | r]]; simpl; [|discriminate].
  destruct (k a) as [d2 o] eqn:E. simpl. intros H. inversion H; subst.
  exists d1, a, d2. auto.
Qed.

(** ** Induction on syntax trees through [children] *)

Lemma Node_children_ind (P : Node -> Prop)
  (step : forall n, Forall P (children n) -> P n) : forall n, P n.
Proof.
  fix IH 1. intros n. apply step.
  pose (allL := fix allL (l : list Node) : Forall P l :=
          match l with
          | [] => Forall_nil P
          | x :: t => Forall_cons x (IH x) (allL t)
          end).
  assert (allO : forall o : option Node, Forall P (optToList o)).
  { intros [x|]; simpl; [constructor; [apply IH | constructor] | constructor]. }
  assert (leaf : forall id, P (NIdent id)).
  { intros id. apply step. constructor. }
  destruct n; simpl.
  - constructor.
  - constructor; [apply IH | constructor; [apply leaf | constructor]].
  - constructor; [apply IH | apply allL].
  - constructor; [apply IH | constructor; [apply IH | constructor]].
  - apply Forall_app; split; apply allO.
  - apply allL.
  - apply Forall_app; split; [|apply allO].
    induction Names; simpl; constructor; [apply leaf | assumption].
  - apply allL.
  - constructor; [apply IH | constructor].
  - constructor; [apply IH | apply Forall_app; split; apply allL].
  - repeat (apply Forall_app; split; try apply allO).
    constructor; [apply IH | constructor].
  - repeat (apply Forall_app; split; try apply allO).
    constructor; [apply IH | constructor; [apply IH | constructor]].
  - apply allL.
Qed.

(** ** [ast.Inspect] in terms of [children] *)

Lemma walkList_app (S : Type) (f : Visitor S) (a b : list Node) (s : S) :
  walkList f (a ++ b) s = s' <- walkList f a s ;; walkList f b s'.
Proof.
  revert s. induction a as [|x a IHa]; intros s; cbn [walkList app].
  - rewrite bind_ret_l. reflexivity.
  - rewrite bind_assoc. destruct (Inspect f x s) as [d [s1 | r]]; [|reflexivity].
    cbn [bind]. rewrite IHa. reflexivity.
Qed.

Lemma Inspect_NIdent (S : Type) (f : Visitor S) (id : Ident) (s : S) :
  Inspect f (NIdent id) s = walkIdent f id s.
Proof.
  unfold walkIdent. cbn [Inspect].
  destruct (f (Some (NIdent id)) s) as [d [[b s1] | r]]; cbn [bind fst snd];
    [|reflexivity].
  destruct b; [|reflexivity].
  rewrite bind_ret_l. reflexivity.
Qed.

Lemma walkList_idents (S : Type) (f : Visitor S) (l : list Ident) (s : S) :
  walkList f (map NIdent l) s = walkIdents f l s.
Proof.
  revert s. induction l as [|id l IHl]; intros s; [reflexivity|].
  cbn [map walkList walkIdents]. rewrite Inspect_NIdent.
  destruct (walkIdent f id s) as [d [s1 | r]]; [|reflexivity].
  cbn [bind]. rewrite IHl. reflexivity.
Qed.

Lemma walkList_opt (S : Type) (f : Visitor S) (o : option Node) (s : S) :
  walkList f (optToList o) s =
  match o with Some x => Inspect f x s | None => ret s end.
Proof.
  destruct o; cbn [optToList walkList]; [apply bind_ret_r | reflexivity].
Qed.

Lemma walkList_one (S : Type) (f : Visitor S) (x : Node) (s : S) :
  walkList f [x] s = Inspect f x s.
Proof. cbn [walkList]. apply bind_ret_r. Qed.

Lemma walkList_cons (S : Type) (f : Visitor S) (x : Node) (t : list Node) (s : S) :
  walkList f (x :: t) s = s' <- Inspect f x s ;; walkList f t s'.
Proof. reflexivity. Qed.

Lemma walkL_walkList (S : Type) (f : Visitor S) (l : list Node) (s : S) :
  (fix walkL (l : list Node) (s : S) {struct l} : M S :=
     match l with
     | [] => ret s
     | x :: t => s' <- Inspect f x s ;; walkL t s'
     end) l s = walkList f l s.
Proof.
  revert s. induction l as [|x l IHl]; intros s; [reflexivity|].
  cbn [walkList]. apply bind_ext. intros a. apply IHl.
Qed.

Lemma Inspect_unfold (S : Type) (f : Visitor S) (n : Node) (s : S) :
  Inspect f n s =
  r <- f (Some n) s ;;
  if fst r then s1 <- walkChildren f n (snd r) ;; visitNil f s1 else ret (snd r).
Proof.
  unfold walkChildren.
  destruct n; cbn [Inspect children];
    destruct (f (Some _) s) as [d [[b s1] | r]]; cbn [bind fst snd];
    try reflexivity; destruct b; try reflexivity;
    match goal with
    | |- (_ ++ fst (bind ?X _), _) = (_ ++ fst (bind ?Y _), _) =>
        cut (X = Y); [intros ->; reflexivity|]
    end;
    repeat first
      [ reflexivity
      | rewrite walkL_walkList
      | rewrite walkList_one
      | rewrite walkList_app
      | rewrite walkList_opt
      | rewrite walkList_idents
      | rewrite Inspect_NIdent
      | rewrite walkList_cons
      | apply bind_ext; intros ? ].
Qed.

(** ** Pre-order listing in terms of [children] *)

Lemma flat_map_cons_eq (A B : Type) (g : A -> list B) (x : A) (l : list A) :
  flat_map g (x :: l) = g x ++ flat_map g l.
Proof. reflexivity. Qed.

Lemma flat_map_optToList (A B : Type) (g : A -> list B) (o : option A) :
  flat_map g (optToList o) = match o with Some x => g x | None => [] end.
Proof. destruct o; cbn; [apply app_nil_r | reflexivity]. Qed.

Lemma flat_map_preorder_idents (l : list Ident) :
  flat_map preorder (map NIdent l) = map NIdent l.
Proof. induction l as [|id l IHl]; cbn; [|rewrite IHl]; reflexivity. Qed.

Lemma preorder_unfold (n : Node) :
  preorder n = n :: flat_map preorder (children n).
Proof.
  destruct n; cbn [preorder children]; f_equal;
    repeat first
      [ rewrite flat_map_app
      | rewrite flat_map_optToList
      | rewrite flat_map_preorder_idents
      | rewrite flat_map_cons_eq ];
    cbn [flat_map]; rewrite ?app_nil_r; reflexivity.
Qed.

Lemma preorder_self (n : Node) : In n (preorder n).
Proof. rewrite preorder_unfold. left. reflexivity. Qed.

Lemma preorder_child (n c x : Node) :
  In c (children n) -> In x (preorder c) -> In x (preorder n).
Proof.
  intros Hc Hx. rewrite preorder_unfold. right.
  apply in_flat_map. exists c. auto.
Qed.

(** ** Visitors that only report

    A visitor over the trivial state that never faults, reports [emit x] at
    node [x] and nothing at the closing [nil] call, and declines to descend
    only where there is nothing below, reports [emit] over the whole tree in
    pre-order. *)
Section ReportingVisitor.
Variable f : Visitor unit.
Variable emit : Node -> list Diagnostic.
Hypothesis f_nil : forall s, f None s = ([], Returned (true, tt)).
Hypothesis f_node : forall x s,
  exists b, f (Some x) s = (emit x, Returned (b, tt))
            /\ (b = false -> children x = []).

Lemma visitNil_reporting (s : unit) : visitNil f s = ([], Returned tt).
Proof. unfold visitNil. rewrite f_nil. reflexivity. Qed.

Lemma walkList_reporting (l : list Node) :
  Forall (fun n => forall s, Inspect f n s = (flat_map emit (preorder n), Returned tt)) l ->
  forall s, walkList f l s = (flat_map emit (flat_map preorder l), Returned tt).
Proof.
  induction 1 as [|x l Hx _ IHl]; intros []; [reflexivity|].
  cbn [walkList flat_map]. rewrite Hx. cbn [bind]. rewrite IHl.
  rewrite flat_map_app. reflexivity.
Qed.

Lemma Inspect_reporting (n : Node) (s : unit) :
  Inspect f n s = (flat_map emit (preorder n), Returned tt).
Proof.
  revert s. induction n as [n IH] using Node_children_ind. intros s.
  rewrite Inspect_unfold, preorder_unfold. unfold walkChildren.
  destruct (f_node n s) as [b [-> Hb]]. cbn [bind fst snd flat_map].
  destruct b.
  - rewrite (walkList_reporting IH). cbn [bind fst snd].
    rewrite visitNil_reporting. cbn [fst snd]. rewrite app_nil_r. reflexivity.
  - rewrite (Hb eq_refl). cbn. rewrite !app_nil_r. reflexivity.
Qed.
End ReportingVisitor.

(** ** Invariants of the visitor state

    A property of the captured state that every call of the visitor on a
    node of the tree (or on [nil]) preserves is preserved by the whole
    walk. *)
Section VisitorInvariant.
Variable S : Type.
Variable f : Visitor S.
Variable I : S -> Prop.
Variable root : Node.
Hypothesis f_nil : forall s d b s',
  I s -> f None s = (d, Returned (b, s')) -> I s'.
Hypothesis f_node : forall x s d b s',
  In x (preorder root) -> I s -> f (Some x) s = (d, Returned (b, s')) -> I s'.

Lemma visitNil_invariant s d s' :
  I s -> visitNil f s = (d, Returned s') -> I s'.
Proof.
  unfold visitNil. intros Hs H.
  apply bind_inv_returned in H. destruct H as (d1 & [b s1] & d2 & E1 & E2 & _).
  inversion E2; subst. eapply f_nil; eauto.
Qed.

Lemma walkList_invariant (l : list Node) :
  Forall (fun n => (forall x, In x (preorder n) -> In x (preorder root)) ->
                   forall s d s', I s -> Inspect f n s = (d, Returned s') -> I s') l ->
  (forall c x, In c l -> In x (preorder c) -> In x (preorder root)) ->
  forall s d s', I s -> walkList f l s = (d, Returned s') -> I s'.
Proof.
  induction 1 as [|c l Hc _ IHl]; intros Hin s d s' Hs H.
  - inversion H; subst. assumption.
  - cbn [walkList] in H. apply bind_inv_returned in H.
    destruct H as (d1 & s1 & d2 & E1 & E2 & _).
    eapply IHl; [| |exact E2].
    + intros c' x Hc' Hx. apply (Hin c' x); [right|]; assumption.
    + eapply Hc; [|exact Hs|exact E1].
      intros x Hx. apply (Hin c x); [left; reflexivity|assumption].
Qed.

Lemma Inspect_invariant_sub (n : Node) :
  (forall x, In x (preorder n) -> In x (preorder root)) ->
  forall s d s', I s -> Inspect f n s = (d, Returned s') -> I s'.
Proof.
  induction n as [n IH] using Node_children_ind. intros Hsub s d s' Hs H.
  rewrite Inspect_unfold in H. apply bind_inv_returned in H.
  destruct H as (d1 & [b s1] & d2 & E1 & E2 & _). cbn [fst snd] in E2.
  assert (Hs1 : I s1).
  { eapply f_node; [|exact Hs|exact E1]. apply Hsub, preorder_self. }
  destruct b.
  - apply bind_inv_returned in E2. destruct E2 as (d3 & s2 & d4 & E3 & E4 & _).
    eapply visitNil_invariant; [|exact E4].
    unfold walkChildren in E3. eapply walkList_invariant; [exact IH| |exact Hs1|exact E3].
    intros c x Hc Hx. apply Hsub. eapply preorder_child; eauto.
  - inversion E2; subst. assumption.
Qed.

Lemma Inspect_invariant s d s' :
  I s -> Inspect f root s = (d, Returned s') -> I s'.
Proof. apply Inspect_invariant_sub. auto. Qed.
End VisitorInvariant.

(** ** Visitors that report nothing *)
Section SilentVisitor.
Variable S : Type.
Variable f : Visitor S.
Hypothesis f_silent : forall o s, fst (f o s) = [].

Lemma bind_silent (A B : Type) (m : M A) (k : A -> M B) :
  fst m = [] -> (forall a, fst (k a) = []) -> fst (x <- m ;; k x) = [].
Proof.
  destruct m as [d [a | r]]; cbn; intros -> Hk; [apply Hk | reflexivity].
Qed.

Lemma visitNil_silent s : fst (visitNil f s) = [].
Proof. unfold visitNil. apply bind_silent; [apply f_silent | reflexivity]. Qed.

Lemma walkList_silent (l : list Node) :
  Forall (fun n => forall s, fst (Inspect f n s) = []) l ->
  forall s, fst (walkList f l s) = [].
Proof.
  induction 1 as [|c l Hc _ IHl]; intros s; [reflexivity|].
  cbn [walkList]. apply bind_silent; [apply Hc | apply IHl].
Qed.

Lemma Inspect_silent (n : Node) (s : S) : fst (Inspect f n s) = [].
Proof.
  revert s. induction n as [n IH] using Node_children_ind. intros s.
  rewrite Inspect_unfold. apply bind_silent; [apply f_silent|].
  intros [b s1]. cbn [fst snd]. destruct b; [|reflexivity].
  apply bind_silent; [apply (walkList_silent IH) | apply visitNil_silent].
Qed.
End SilentVisitor.

(** ** Finders: a hit is kept

    A visitor whose state is the match s <> Noneo far, that leaves the state
    alone and descends where the node is no hit, and stores a match where
    it is one, ends with a match whenever the tree holds a hit. *)
Section FinderHit.
Variable T : Type.
Variable f : Visitor (option T).
Variable hit : Node -> Prop.
Hypothesis f_nil : forall s d b s',
  f None s = (d, Returned (b, s')) -> s' = s.
Hypothesis f_node : forall x s d b s',
  f (Some x) s = (d, Returned (b, s')) ->
  (s' = s /\ b = true /\ ~ hit x) \/ (exists t, s' = Some t /\ hit x).

Lemma visitNil_same s d s' : visitNil f s = (d, Returned s') -> s' = s.
Proof.
  unfold visitNil. intros H. apply bind_inv_returned in H.
  destruct H as (d1 & [b s1] & d2 & E1 & E2 & _). inversion E2; subst.
  eapply f_nil; eauto.
Qed.

Lemma walkList_hit (l : list Node) :
  Forall (fun n => forall s d s', Inspect f n s = (d, Returned s') ->
            (s <> None -> s' <> None)
            /\ ((exists x, In x (preorder n) /\ hit x) -> s' <> None)) l ->
  forall s d s', walkList f l s = (d, Returned s') ->
    (s <> None -> s' <> None)
    /\ ((exists c x, In c l /\ In x (preorder c) /\ hit x) -> s' <> None).
Proof.
  induction 1 as [|c l Hc _ IHl]; intros s d s' H.
  - inversion H; subst. split; [auto|]. intros (c & x & [] & _).
  - cbn [walkList] in H. apply bind_inv_returned in H.
    destruct H as (d1 & s1 & d2 & E1 & E2 & _).
    destruct (Hc _ _ _ E1) as [K1 H1]. destruct (IHl _ _ _ E2) as [K2 H2].
    split; [auto|]. intros (c' & x & [<- | Hin] & Hx & Hh).
    + apply K2, H1. eauto.
    + apply H2. eauto.
Qed.

Lemma Inspect_hit (n : Node) s d s' :
  Inspect f n s = (d, Returned s') ->
  (s <> None -> s' <> None) /\ ((exists x, In x (preorder n) /\ hit x) -> s' <> None).
Proof.
  revert s d s'. induction n as [n IH] using Node_children_ind. intros s d s' H.
  rewrite Inspect_unfold in H. apply bind_inv_returned in H.
  destruct H as (d1 & [b s1] & d2 & E1 & E2 & _). cbn [fst snd] in E2.
  destruct (f_node E1) as [(-> & -> & Hno) | (t & -> & Hh)].
  - apply bind_inv_returned in E2. destruct E2 as (d3 & s2 & d4 & E3 & E4 & _).
    apply visitNil_same in E4. subst s2.
    unfold walkChildren in E3.
    destruct (@walkList_hit _ IH _ _ _ E3) as [K H]. split; [assumption|].
    intros (x & Hx & Hh). rewrite preorder_unfold in Hx. destruct Hx as [<- | Hx].
    + contradiction.
    + apply in_flat_map in Hx. destruct Hx as (c & Hc & Hx). apply H. eauto.
  - assert (Hf : s' <> None).
    { destruct b.
      - apply bind_inv_returned in E2. destruct E2 as (d3 & s2 & d4 & E3 & E4 & _).
        apply visitNil_same in E4. subst s2.
        unfold walkChildren in E3.
        apply (proj1 (@walkList_hit _ IH _ _ _ E3)). discriminate.
      - inversion E2; subst. discriminate. }
    auto.
Qed.
End FinderHit.

(** ** The two call finders *)

Lemma M_eta (A : Type) (m : M A) : m = (reported m, outcome m).
Proof. destruct m; reflexivity. Qed.

Lemma findTestingTCallsVisit_silent pass methodName o s :
  fst (findTestingTCallsVisit pass methodName o s) = [].
Proof.
  unfold findTestingTCallsVisit.
  repeat match goal with
         | |- context [match ?t with _ => _ end] => destruct t
         end; reflexivity.
Qed.

Lemma findTestingTCallsVisit_node pass methodName x s d b s' :
  findTestingTCallsVisit pass methodName (Some x) s = (d, Returned (b, s')) ->
  (s' = s /\ b = true /\ isTestingTCall pass methodName x = false)
  \/ (exists c, s' = Some c /\ b = false /\ x = callNode c
                /\ isTestingTCall pass methodName x = true).
Proof.
  unfold findTestingTCallsVisit, isTestingTCall, ObjectOf.
  destruct x as [| | Fun Args | | | | | | | | | |];
    try solve [intros H; inversion H; subst; left; auto].
  destruct Fun as [| X Sel | | | | | | | | | | |];
    try solve [intros H; inversion H; subst; left; auto].
  destruct X as [recv | | | | | | | | | | | |];
    try solve [intros H; inversion H; subst; left; auto].
  destruct (Objects pass recv) as [obj|]; [|discriminate].
  destruct (_ && _); intros H; inversion H; subst; [right | left; auto].
  exists (mkCall (SelectorExpr (NIdent recv) Sel) Args). auto.
Qed.

Lemma findTestingTCalls_silent pass root methodName :
  reported (findTestingTCalls pass root methodName) = [].
Proof. apply Inspect_silent. apply findTestingTCallsVisit_silent. Qed.

(** What [findTestingTCalls] returns is a call of the tree that meets the
    condition of the finder. *)
Lemma findTestingTCalls_sound pass root methodName c :
  outcome (findTestingTCalls pass root methodName) = Returned (Some c) ->
  In (callNode c) (preorder root) /\ isTestingTCall pass methodName (callNode c) = true.
Proof.
  intros H. unfold findTestingTCalls in *.
  pose (I := fun s : option CallExprNode =>
               forall c, s = Some c ->
                 In (callNode c) (preorder root)
                 /\ isTestingTCall pass methodName (callNode c) = true).
  assert (HI : I (Some c)); [|apply HI; reflexivity].
  rewrite (M_eta (Inspect _ root None)) in H. unfold outcome in H.
  eapply (@Inspect_invariant _ (findTestingTCallsVisit pass methodName) I root)
    with (s := None) (d := fst (Inspect (findTestingTCallsVisit pass methodName) root None)).
  - intros s d b s' Hs E. inversion E; subst. assumption.
  - intros x s d b s' Hx Hs E.
    apply findTestingTCallsVisit_node in E.
    destruct E as [(-> & _ & _) | (c' & -> & _ & -> & Hm)]; [assumption|].
    intros c'' E. inversion E; subst. auto.
  - intros c' E. discriminate.
  - rewrite <- H. destruct (Inspect _ root None); reflexivity.
Qed.

(** Unless the search faults, a tree that holds a call meeting the
    condition makes [findTestingTCalls] return a call. *)
Lemma findTestingTCalls_complete pass root methodName s' :
  outcome (findTestingTCalls pass root methodName) = Returned s' ->
  (exists x, In x (preorder root) /\ isTestingTCall pass methodName x = true) ->
  s' <> None.
Proof.
  intros H. unfold findTestingTCalls, outcome in H.
  destruct (Inspect _ root None) as [d o] eqn:E. cbn in H. subst o.
  eapply (@Inspect_hit _ (findTestingTCallsVisit pass methodName)
            (fun x => isTestingTCall pass methodName x = true)); [| |exact E].
  - intros s d0 b s0 E0. inversion E0; subst. reflexivity.
  - intros x s d0 b s0 E0. apply findTestingTCallsVisit_node in E0.
    destruct E0 as [(-> & -> & Hm) | (c & -> & _ & _ & Hm)].
    + left. repeat split. rewrite Hm. discriminate.
    + right. eauto.
Qed.

Lemma isGinkgoIdentifier_returned pass id d b :
  isGinkgoIdentifier pass id = (d, Returned b) ->
  d = [] /\ exists obj path,
    Objects pass id = Some obj /\ PkgPath pass obj = Some path
    /\ b = existsb (String.eqb path) ginkgoPaths.
Proof.
  unfold isGinkgoIdentifier, ObjectOf.
  destruct (Objects pass id) as [obj|] eqn:Eo; [|discriminate].
  destruct (PkgPath pass obj) as [path|] eqn:Ep; [|discriminate].
  intros H. inversion H; subst. split; [reflexivity|].
  exists obj, path. repeat split; [assumption|].
  unfold ginkgoPaths. cbn [existsb]. rewrite orb_false_r. reflexivity.
Qed.

Lemma isGinkgoIdentifier_silent pass id : fst (isGinkgoIdentifier pass id) = [].
Proof.
  unfold isGinkgoIdentifier, ObjectOf.
  destruct (Objects pass id) as [obj|]; [|reflexivity].
  destruct (PkgPath pass obj); reflexivity.
Qed.

Lemma findGinkgoItCallsVisit_silent pass o s :
  fst (findGinkgoItCallsVisit pass o s) = [].
Proof.
  unfold findGinkgoItCallsVisit.
  destruct o as [x|]; [|reflexivity].
  destruct x; try reflexivity.
  destruct (callIdentifierOf x) as [id|]; [|reflexivity].
  destruct (String.eqb (Name id) "It"); [|reflexivity].
  apply bind_silent; [apply isGinkgoIdentifier_silent|].
  intros []; reflexivity.
Qed.

Lemma findGinkgoItCallsVisit_node pass x s d b s' :
  findGinkgoItCallsVisit pass (Some x) s = (d, Returned (b, s')) ->
  (s' = s /\ b = true /\ isGinkgoItCall pass x = false)
  \/ (exists c, s' = Some c /\ b = false /\ x = callNode c
                /\ isGinkgoItCall pass x = true).
Proof.
  unfold findGinkgoItCallsVisit, isGinkgoItCall.
  destruct x as [| | Fun Args | | | | | | | | | |];
    try solve [intros H; inversion H; subst; left; auto].
  destruct (callIdentifierOf Fun) as [id|];
    [|intros H; inversion H; subst; left; auto].
  destruct (String.eqb (Name id) "It");
    [|intros H; inversion H; subst; left; auto].
  intros H. apply bind_inv_returned in H.
  destruct H as (d1 & isGinkgo & d2 & E1 & E2 & _).
  apply isGinkgoIdentifier_returned in E1.
  destruct E1 as (_ & obj & path & -> & -> & ->). cbn [andb].
  destruct (existsb _ _); inversion E2; subst; [right | left; auto].
  exists (mkCall Fun Args). auto.
Qed.

Lemma findGinkgoItCalls_silent pass root :
  reported (findGinkgoItCalls pass root) = [].
Proof. apply Inspect_silent. apply findGinkgoItCallsVisit_silent. Qed.

(** What [findGinkgoItCalls] returns is a call of the tree that meets the
    condition of the finder. *)
Lemma findGinkgoItCalls_sound pass root c :
  outcome (findGinkgoItCalls pass root) = Returned (Some c) ->
  In (callNode c) (preorder root) /\ isGinkgoItCall pass (callNode c) = true.
Proof.
  intros H. unfold findGinkgoItCalls in *.
  pose (I := fun s : option CallExprNode =>
               forall c, s = Some c ->
                 In (callNode c) (preorder root)
                 /\ isGinkgoItCall pass (callNode c) = true).
  assert (HI : I (Some c)); [|apply HI; reflexivity].
  unfold outcome in H.
  eapply (@Inspect_invariant _ (findGinkgoItCallsVisit pass) I root)
    with (s := None) (d := fst (Inspect (findGinkgoItCallsVisit pass) root None)).
  - intros s d b s' Hs E. inversion E; subst. assumption.
  - intros x s d b s' Hx Hs E.
    apply findGinkgoItCallsVisit_node in E.
    destruct E as [(-> & _ & _) | (c' & -> & _ & -> & Hm)]; [assumption|].
    intros c'' E. inversion E; subst. auto.
  - intros c' E. discriminate.
  - rewrite <- H. destruct (Inspect _ root None); reflexivity.
Qed.

(** Unless the search faults, a tree that holds a call meeting the
    condition makes [findGinkgoItCalls] return a call. *)
Lemma findGinkgoItCalls_complete pass root s' :
  outcome (findGinkgoItCalls pass root) = Returned s' ->
  (exists x, In x (preorder root) /\ isGinkgoItCall pass x = true) ->
  s' <> None.
Proof.
  intros H. unfold findGinkgoItCalls, outcome in H.
  destruct (Inspect _ root None) as [d o] eqn:E. cbn in H. subst o.
  eapply (@Inspect_hit _ (findGinkgoItCallsVisit pass)
            (fun x => isGinkgoItCall pass x = true)); [| |exact E].
  - intros s d0 b s0 E0. inversion E0; subst. reflexivity.
  - intros x s d0 b s0 E0. apply findGinkgoItCallsVisit_node in E0.
    destruct E0 as [(-> & -> & Hm) | (c & -> & _ & _ & Hm)].
    + left. repeat split. rewrite Hm. discriminate.
    + right. eauto.
Qed.

(** ** Loop variables *)

Lemma getLoopVarsIdentifiers_loop (loopNode : Node) :
  isLoop loopNode = true ->
  exists idents, getLoopVarsIdentifiers loopNode = ret idents.
Proof.
  destruct loopNode; try discriminate; intros _; cbn [getLoopVarsIdentifiers].
  - destruct Init as [[]|]; eauto.
  - eauto.
Qed.

Lemma getLoopBody_isLoop (loopNode body : Node) :
  getLoopBody loopNode = Some body -> isLoop loopNode = true.
Proof. destruct loopNode; try discriminate; reflexivity. Qed.

(** ** The capture checker *)

Lemma checkAndReportLoopIdentifierObject_ident pass objs id message :
  checkAndReportLoopIdentifierObject pass objs (Some (NIdent id)) message =
  if isLoopVar pass objs id
  then ([mkDiagnostic (NamePos id) (message (Name id) (Name id))], Returned false)
  else ([], Returned true).
Proof.
  unfold checkAndReportLoopIdentifierObject, isLoopVar, slices.Any, ObjectOf.
  destruct (existsb _ objs); reflexivity.
Qed.

Lemma flat_map_idents (emit : Node -> list Diagnostic) (keep : Ident -> bool)
    (diag : Ident -> Diagnostic) (l : list Node) :
  (forall x, emit x = match x with
                      | NIdent id => if keep id then [diag id] else []
                      | _ => []
                      end) ->
  flat_map emit l =
  map diag (filter keep
              (flat_map (fun x => match x with NIdent id => [id] | _ => [] end) l)).
Proof.
  intros H. induction l as [|x l IHl]; [reflexivity|].
  cbn [flat_map]. rewrite filter_app, map_app, <- IHl, H.
  destruct x; try reflexivity. cbn [filter]. destruct (keep id); reflexivity.
Qed.

Lemma Inspect_checkAndReportLoopVisit pass objs marker closure :
  Inspect (checkAndReportLoopVisit pass objs marker) closure tt =
  (map goTestDiagnostic (capturedIdentsAfter pass objs marker closure), Returned tt).
Proof.
  rewrite (@Inspect_reporting _ (subtestReport pass objs marker)).
  - unfold capturedIdentsAfter, identsOf. f_equal.
    apply flat_map_idents. reflexivity.
  - reflexivity.
  - intros x []. unfold checkAndReportLoopVisit, subtestReport.
    destruct (NodePos x <=? marker) eqn:Epos.
    + exists true. split; [|discriminate].
      destruct x; try reflexivity. cbn [NodePos] in Epos.
      apply Z.leb_le in Epos. apply Z.ltb_ge in Epos. rewrite Epos. reflexivity.
    + destruct x as [id| | | | | | | | | | | |];
        try (exists true; split; [reflexivity | discriminate]).
      cbn [NodePos] in Epos. apply Z.leb_gt in Epos. apply Z.ltb_lt in Epos.
      rewrite Epos, checkAndReportLoopIdentifierObject_ident. cbn [andb].
      destruct (isLoopVar pass objs id).
      * exists false. split; reflexivity.
      * exists true. split; [reflexivity | discriminate].
Qed.

Lemma Inspect_checkAndReportLoopGinkgoVisit pass objs closure :
  Inspect (checkAndReportLoopGinkgoVisit pass objs) closure tt =
  (map ginkgoDiagnostic (capturedIdents pass objs closure), Returned tt).
Proof.
  rewrite (@Inspect_reporting _ (ginkgoReport pass objs)).
  - unfold capturedIdents, identsOf. f_equal.
    apply flat_map_idents. reflexivity.
  - reflexivity.
  - intros x []. unfold checkAndReportLoopGinkgoVisit, ginkgoReport.
    destruct x as [id| | | | | | | | | | | |];
      try (exists true; split; [reflexivity | discriminate]).
    rewrite checkAndReportLoopIdentifierObject_ident.
    destruct (isLoopVar pass objs id).
    + exists false. split; reflexivity.
    + exists true. split; [reflexivity | discriminate].
Qed.

Lemma getSubtestClosure_funcLit (runCall : CallExprNode) (closure : FuncLitNode) :
  nth_error (CallArgs runCall) 1 = Some (funcLitNode closure) ->
  getSubtestClosure runCall = ret (Some closure).
Proof.
  intros H. unfold getSubtestClosure. rewrite H. destruct closure; reflexivity.
Qed.

Lemma isParallelFunctionClosure_silent pass closure :
  reported (isParallelFunctionClosure pass closure) = [].
Proof.
  unfold isParallelFunctionClosure, reported. apply bind_silent.
  - apply findTestingTCalls_silent.
  - intros [c|]; reflexivity.
Qed.

Lemma silent_returned (A : Type) (m : M A) (a : A) :
  reported m = [] -> outcome m = Returned a -> m = ret a.
Proof. destruct m; cbn. intros -> ->. reflexivity. Qed.

(** * The claims *)

(** With a matched [Run] call whose second argument is a function literal,
    the Subtest check comes down to the search for the marker and the walk
    of the closure. *)
Lemma checkAndReportLoop_closure pass loopNode body objs runCall closure :
  getLoopNodeIdentifiersObjects pass loopNode = ret objs ->
  getLoopBody loopNode = Some body ->
  outcome (findTestingTCalls pass body "Run") = Returned (Some runCall) ->
  nth_error (CallArgs runCall) 1 = Some (funcLitNode closure) ->
  checkAndReportLoop pass loopNode =
  (parallelTokenPos <- isParallelFunctionClosure pass closure ;;
   match parallelTokenPos with
   | None => ret tt
   | Some marker =>
       Inspect (checkAndReportLoopVisit pass objs marker) (funcLitNode closure) tt
   end).
Proof.
  intros Hobjs Hbody Hrun Hargs. unfold checkAndReportLoop, loopBodyOrFault.
  rewrite Hobjs, bind_ret_l, Hbody, bind_ret_l.
  rewrite (@silent_returned _ _ _ (findTestingTCalls_silent pass body "Run") Hrun).
  rewrite bind_ret_l, (@getSubtestClosure_funcLit _ _ Hargs), bind_ret_l.
  reflexivity.
Qed.

(** C1 on the code.  In the loop
    [for i, v := range items {
       t.Run(name, func(t *testing.T) {
         t.Parallel(); use(v)
         t.Run(name, func(t *testing.T) { t.Parallel() }) }) }]
    the matched [Run] call has a function literal as second argument, the
    closure calls [t.Parallel()] at position 60 and refers to the loop
    variable [v] afterwards, at position 79: one diagnostic is due, at 79.
    The closure body holds a second marker call further down, in the
    subtest of its own, at position 120.  The locator returns that later
    one (the finder keeps the last match it meets, as for C4), every
    identifier up to position 120 counts as lying before the marker, and
    the check of the loop reports nothing. *)
Theorem C1_later_marker_hides_capture :
  findTestingTCalls Examples.nestedPass Examples.nestedSubtestBody "Run"
    = ret (Some Examples.nestedRunCall)
  /\ nth_error (CallArgs Examples.nestedRunCall) 1
     = Some (funcLitNode Examples.nestedClosureLit)
  /\ getLoopNodeIdentifiersObjects Examples.nestedPass Examples.nestedSubtestLoop
     = ret [Some 2%nat; Some 3%nat]
  /\ option_map NodePos
       (specFirstCall (isTestingTCall Examples.nestedPass "Parallel")
          (FuncLitBody Examples.nestedClosureLit)) = Some 60
  /\ capturedIdentsAfter Examples.nestedPass [Some 2%nat; Some 3%nat] 60
       (funcLitNode Examples.nestedClosureLit) = [mkIdent 79 "v"]
  /\ isParallelFunctionClosure Examples.nestedPass Examples.nestedClosureLit
     = ret (Some 120)
  /\ checkAndReportLoop Examples.nestedPass Examples.nestedSubtestLoop
     = ([], Returned tt).
Proof. repeat split; reflexivity. Qed.

(** C2.  Spec pattern.  For a loop whose body holds a matched [It] call (the
    call [findGinkgoItCalls] returns) with a function literal as second
    argument, the check reports one diagnostic for each identifier of the
    closure that resolves to an object of the loop, wherever it lies, in
    document order, at that identifier's position and with its name. *)
Theorem C2_ginkgo_diagnostics pass loopNode body objs itCall closure :
  getLoopNodeIdentifiersObjects pass loopNode = ret objs ->
  getLoopBody loopNode = Some body ->
  outcome (findGinkgoItCalls pass body) = Returned (Some itCall) ->
  nth_error (CallArgs itCall) 1 = Some (funcLitNode closure) ->
  checkAndReportLoopGinkgo pass loopNode =
  (map ginkgoDiagnostic
     (filter (isLoopVar pass objs) (identsOf (funcLitNode closure))),
   Returned tt).
Proof.
  intros Hobjs Hbody Hcall Hargs.
  unfold checkAndReportLoopGinkgo, loopBodyOrFault.
  rewrite Hobjs, bind_ret_l, Hbody, bind_ret_l.
  rewrite (@silent_returned _ _ _ (findGinkgoItCalls_silent pass body) Hcall), bind_ret_l.
  rewrite (@getSubtestClosure_funcLit _ _ Hargs), bind_ret_l.
  apply Inspect_checkAndReportLoopGinkgoVisit.
Qed.

(** C2 at the loop [for i, v := range items { It("desc", func() { use(v) }) }]. *)
Lemma C2_ginkgo_diagnostics_witness :
  checkAndReportLoopGinkgo Examples.pass Examples.ginkgoLoop =
  ([ginkgoDiagnostic (mkIdent 224 "v")], Returned tt).
Proof.
  exact (@C2_ginkgo_diagnostics Examples.pass Examples.ginkgoLoop
           (BlockStmt 25 [ExprStmt (Examples.itCallExpr 200 220)])
           [Some 2%nat; Some 3%nat]
           (Examples.itCall 200 220) (Examples.itClosureLit 200 220)
           eq_refl eq_refl eq_refl eq_refl).
Defined.

(** ** The per-loop boundary *)

Lemma withRecover_panicked (body : M unit) (handler : PanicValue -> M unit) r :
  outcome body = Panicked r ->
  withRecover body handler =
  (reported body ++ reported (handler r), outcome (handler r)).
Proof. destruct body as [d [[]|r']]; cbn; intros H; inversion H; reflexivity. Qed.

(** The function run on a loop node never faults. *)
Lemma checkLoopNode_returns pass loopNode :
  outcome (checkLoopNode pass loopNode) = Returned tt.
Proof.
  unfold checkLoopNode.
  destruct (checkAndReportLoop pass loopNode ;;; checkAndReportLoopGinkgo pass loopNode)
    as [d [[]|r]]; reflexivity.
Qed.

Lemma forEach_checkLoopNode pass (loops : list Node) :
  forEach (checkLoopNode pass) loops =
  (flat_map (fun l => reported (checkLoopNode pass l)) loops, Returned tt).
Proof.
  induction loops as [|l loops IH]; [reflexivity|].
  cbn [forEach flat_map]. rewrite IH.
  rewrite (M_eta (checkLoopNode pass l)), checkLoopNode_returns. reflexivity.
Qed.

(** C6.  When the check of a loop faults with value [r], the function run
    on that loop reports what the check had reported before the fault and
    then exactly one diagnostic at the position of the loop with the text of
    [r], and returns normally; the run over all the loops of the files
    returns normally and reports, loop after loop, what each loop reports on
    its own, so the loops before and after the faulting one are checked as
    if it were not there. *)
Theorem C6_fault_boundary pass loopNode r :
  outcome (checkAndReportLoop pass loopNode ;;; checkAndReportLoopGinkgo pass loopNode)
    = Panicked r ->
  checkLoopNode pass loopNode =
    (reported (checkAndReportLoop pass loopNode ;;; checkAndReportLoopGinkgo pass loopNode)
       ++ [panicDiagnostic loopNode r],
     Returned tt)
  /\ forall files before after,
       loopsOf files = before ++ loopNode :: after ->
       findIgnoredTests pass files =
       (flat_map (fun l => reported (checkLoopNode pass l)) before
          ++ (reported (checkAndReportLoop pass loopNode ;;;
                        checkAndReportLoopGinkgo pass loopNode)
                ++ [panicDiagnostic loopNode r])
          ++ flat_map (fun l => reported (checkLoopNode pass l)) after,
        Returned tt).
Proof.
  intros Hr.
  assert (E : checkLoopNode pass loopNode =
              (reported (checkAndReportLoop pass loopNode ;;;
                         checkAndReportLoopGinkgo pass loopNode)
                 ++ [panicDiagnostic loopNode r], Returned tt)).
  { unfold checkLoopNode. rewrite (@withRecover_panicked _ _ _ Hr). reflexivity. }
  split; [exact E|].
  intros files before after Hloops.
  unfold findIgnoredTests. fold (loopsOf files). rewrite Hloops.
  rewrite forEach_checkLoopNode, flat_map_app. cbn [flat_map].
  rewrite E. reflexivity.
Qed.

(** ** A [Run] call without a second argument *)

Lemma getSubtestClosure_short (runCall : CallExprNode) :
  (List.length (CallArgs runCall) < 2)%nat ->
  getSubtestClosure runCall =
  panic (PanicIndexOutOfRange 1 (List.length (CallArgs runCall))).
Proof.
  intros H. unfold getSubtestClosure.
  destruct (nth_error (CallArgs runCall) 1) eqn:E; [|reflexivity].
  assert (nth_error (CallArgs runCall) 1 <> None) as Hn by (rewrite E; discriminate).
  apply nth_error_Some in Hn. lia.
Qed.

(** C3, as the code has it.  For a loop whose matched [Run] call has fewer
    than two arguments, the Subtest check faults on the missing argument
    slot; the function run on the loop reports exactly one diagnostic, at
    the position of the loop and with the text of the index fault, and
    returns normally; the Spec check of that loop is not reached, so
    nothing of it is reported. *)
Theorem C3_run_without_closure pass loopNode body runCall :
  getLoopBody loopNode = Some body ->
  outcome (findTestingTCalls pass body "Run") = Returned (Some runCall) ->
  (List.length (CallArgs runCall) < 2)%nat ->
  checkAndReportLoop pass loopNode =
    panic (PanicIndexOutOfRange 1 (List.length (CallArgs runCall)))
  /\ checkLoopNode pass loopNode =
     ([panicDiagnostic loopNode
         (PanicIndexOutOfRange 1 (List.length (CallArgs runCall)))],
      Returned tt).
Proof.
  intros Hbody Hrun Hlen.
  assert (E : checkAndReportLoop pass loopNode =
              panic (PanicIndexOutOfRange 1 (List.length (CallArgs runCall)))).
  { unfold checkAndReportLoop, loopBodyOrFault, getLoopNodeIdentifiersObjects.
    destruct (@getLoopVarsIdentifiers_loop _ (@getLoopBody_isLoop _ _ Hbody)) as [idents ->].
    rewrite !bind_ret_l, Hbody, bind_ret_l.
    rewrite (@silent_returned _ _ _ (findTestingTCalls_silent pass body "Run") Hrun).
    rewrite bind_ret_l, (@getSubtestClosure_short _ Hlen). reflexivity. }
  split; [exact E|].
  unfold checkLoopNode. rewrite E. reflexivity.
Qed.

(** C3 at the loop
    [for i, v := range items { t.Run("name"); It("desc", func() { use(v) }) }]. *)
Lemma C3_run_without_closure_witness :
  checkLoopNode Examples.pass Examples.oneArgRunLoop =
  ([panicDiagnostic Examples.oneArgRunLoop (PanicIndexOutOfRange 1 1)], Returned tt).
Proof.
  exact (proj2 (@C3_run_without_closure Examples.pass Examples.oneArgRunLoop
                  (BlockStmt 25 [ExprStmt (callNode Examples.oneArgRunCall);
                                 ExprStmt (Examples.itCallExpr 200 220)])
                  Examples.oneArgRunCall eq_refl eq_refl (le_n 2))).
Defined.

(** C3 as stated fails: in the loop
    [for i, v := range items { t.Run("name"); It("desc", func() { use(v) }) }]
    the matched [Run] call has one argument, the Spec check taken alone
    reports the use of [v] inside the [It] closure, and yet the function run
    on the loop reports the fault of the Subtest check at the loop and no
    Spec diagnostic. *)
Lemma C3_counterexample :
  outcome (findTestingTCalls Examples.pass
             (BlockStmt 25 [ExprStmt (callNode Examples.oneArgRunCall);
                            ExprStmt (Examples.itCallExpr 200 220)]) "Run")
    = Returned (Some Examples.oneArgRunCall)
  /\ List.length (CallArgs Examples.oneArgRunCall) = 1%nat
  /\ reported (checkAndReportLoopGinkgo Examples.pass Examples.oneArgRunLoop)
     = [ginkgoDiagnostic (mkIdent 224 "v")]
  /\ reported (checkLoopNode Examples.pass Examples.oneArgRunLoop)
     = [mkDiagnostic 5 ("panic: runtime error: index out of range [1] with length 1"
                          ++ newline)%string]
  /\ ~ In (ginkgoDiagnostic (mkIdent 224 "v"))
          (reported (checkLoopNode Examples.pass Examples.oneArgRunLoop)).
Proof.
  repeat split; try reflexivity.
  cbn. intros [H | []]. discriminate H.
Qed.

(** C6 at the same loop: the fault of the Subtest check is the only thing
    reported there. *)
Lemma C6_fault_boundary_witness :
  checkLoopNode Examples.pass Examples.oneArgRunLoop =
  ([] ++ [panicDiagnostic Examples.oneArgRunLoop (PanicIndexOutOfRange 1 1)],
   Returned tt).
Proof.
  exact (proj1 (@C6_fault_boundary Examples.pass Examples.oneArgRunLoop
                  (PanicIndexOutOfRange 1 1) eq_refl)).
Defined.

(** ** Which call a finder returns *)

(** C4 on the code.  In a body with two subtests one after the other,
    [{ t.Run(name, ...); t.Run(name, ...) }], the first matching call in
    document order is the one at position 30, while [findTestingTCalls]
    returns the one at position 130: declining to descend into a match does
    not end the walk, and a later match replaces the stored one.  The check
    of the loop then reports the use of [v] in the second closure only.
    [findGinkgoItCalls] does the same with two [It] calls. *)
Theorem C4_later_match_replaces_first :
  specFirstCall (isTestingTCall Examples.pass "Run") Examples.twoRunsBody
    = Some (callNode (Examples.runCall 0))
  /\ findTestingTCalls Examples.pass Examples.twoRunsBody "Run"
     = ret (Some (Examples.runCall 100))
  /\ checkAndReportLoop Examples.pass Examples.twoRunsLoop
     = ([goTestDiagnostic (mkIdent 179 "v")], Returned tt)
  /\ specFirstCall (isGinkgoItCall Examples.pass) Examples.twoItsBody
     = Some (callNode (Examples.itCall 200 220))
  /\ findGinkgoItCalls Examples.pass Examples.twoItsBody
     = ret (Some (Examples.itCall 240 260)).
Proof. repeat split; reflexivity. Qed.

(** ** The parallel marker *)

Lemma isTestingTCall_shape pass methodName x :
  isTestingTCall pass methodName x = true ->
  exists recv Sel Args obj,
    x = CallExpr (SelectorExpr (NIdent recv) Sel) Args
    /\ Objects pass recv = Some obj
    /\ TypeString pass obj = "*testing.T"
    /\ Name Sel = methodName.
Proof.
  unfold isTestingTCall.
  destruct x as [| | Fun Args | | | | | | | | | |]; try discriminate.
  destruct Fun as [| X Sel | | | | | | | | | | |]; try discriminate.
  destruct X as [recv | | | | | | | | | | | |]; try discriminate.
  destruct (Objects pass recv) as [obj|] eqn:Eo; [|discriminate].
  intros H. apply andb_true_iff in H. destruct H as [Ht Hn].
  apply String.eqb_eq in Ht, Hn.
  exists recv, Sel, Args, obj. auto.
Qed.

(** C5, as the code has it.  A marker position is returned only when the
    body of the closure holds a call whose receiver is an identifier that
    resolves to an object of type [*testing.T] and whose selected member is
    named [Parallel], and the position is that of the receiver; neither the
    identity of the receiver with the closure's own parameter nor the number
    of arguments is looked at.  Unless the search faults, a body that holds
    such a call yields a marker. *)
Theorem C5_parallel_marker pass closure :
  (forall marker,
     outcome (isParallelFunctionClosure pass closure) = Returned (Some marker) ->
     exists recv Sel Args obj,
       In (CallExpr (SelectorExpr (NIdent recv) Sel) Args)
          (preorder (FuncLitBody closure))
       /\ Objects pass recv = Some obj
       /\ TypeString pass obj = "*testing.T"
       /\ Name Sel = "Parallel"
       /\ marker = NamePos recv)
  /\ (forall result,
        outcome (isParallelFunctionClosure pass closure) = Returned result ->
        (exists x, In x (preorder (FuncLitBody closure))
                   /\ isTestingTCall pass "Parallel" x = true) ->
        result <> None).
Proof.
  unfold isParallelFunctionClosure, outcome.
  destruct (findTestingTCalls pass (FuncLitBody closure) "Parallel")
    as [d [found | r]] eqn:E; cbn [bind snd]; [|split; intros; discriminate].
  assert (Ho : outcome (findTestingTCalls pass (FuncLitBody closure) "Parallel")
               = Returned found) by (rewrite E; reflexivity).
  split.
  - intros marker H. destruct found as [[Fun Args]|]; [|discriminate].
    destruct (@findTestingTCalls_sound _ _ _ _ Ho) as [Hin Hm].
    destruct (@isTestingTCall_shape _ _ _ Hm)
      as (recv & Sel & Args' & obj & Ec & Hobj & Hty & Hn).
    unfold callNode in *. cbn [CallFun CallArgs] in *.
    inversion Ec; subst Fun Args'. cbn in H. inversion H; subst marker.
    exists recv, Sel, Args, obj. auto 6.
  - intros result H Hex.
    pose proof (@findTestingTCalls_complete _ _ _ _ Ho Hex) as Hf.
    destruct found as [c|]; [|contradiction]. cbn in H. inversion H. discriminate.
Qed.

(** C5 at the closure [func(t *testing.T) { t.Parallel(); use(v) }]. *)
Lemma C5_parallel_marker_witness :
  exists recv Sel Args obj,
    In (CallExpr (SelectorExpr (NIdent recv) Sel) Args)
       (preorder (FuncLitBody (Examples.parallelClosureLit 0)))
    /\ Objects Examples.pass recv = Some obj
    /\ TypeString Examples.pass obj = "*testing.T"
    /\ Name Sel = "Parallel"
    /\ 60 = NamePos recv.
Proof.
  exact (proj1 (C5_parallel_marker Examples.pass (Examples.parallelClosureLit 0))
           60 eq_refl).
Defined.

(** C5 as stated fails: in the closure
    [func(t *testing.T) { t.Parallel(1); use(v) }], where the receiver of
    [Parallel] resolves to the test context of the enclosing test (object 1)
    and not to the closure's own parameter (object 4), and the call takes an
    argument, the code finds a marker at position 90, while a search for a
    zero-argument call on the closure's own parameter finds none. *)
Lemma C5_counterexample :
  isParallelFunctionClosure Examples.pass Examples.outerParallelClosure
    = ret (Some 90)
  /\ specParallelMarker Examples.pass Examples.outerParallelClosure = None
  /\ Objects Examples.pass (mkIdent 90 "t") = Some 1%nat
  /\ option_map (Objects Examples.pass)
       (closureParameter Examples.outerParallelClosure) = Some (Some 4%nat).
Proof. repeat split; reflexivity. Qed.

(** ** Identity, not name *)

Lemma Object_eqb_eq (a b : option Object) : Object_eqb a b = true <-> a = b.
Proof.
  destruct a as [x|], b as [y|]; cbn; split; intros H;
    try discriminate; try reflexivity.
  - apply Nat.eqb_eq in H. subst. reflexivity.
  - inversion H. apply Nat.eqb_refl.
Qed.

Lemma isLoopVar_In pass objs id :
  isLoopVar pass objs id = true <-> In (Objects pass id) objs.
Proof.
  unfold isLoopVar. rewrite existsb_exists. split.
  - intros (o & Hin & Heq). apply Object_eqb_eq in Heq. subst. assumption.
  - intros Hin. exists (Objects pass id). split; [assumption|].
    apply Object_eqb_eq. reflexivity.
Qed.

Lemma filter_none (A : Type) (keep : A -> bool) (l : list A) :
  (forall x, In x l -> keep x = false) -> filter keep l = [].
Proof.
  induction l as [|x l IH]; intros H; [reflexivity|].
  cbn [filter]. rewrite (H x (or_introl eq_refl)). apply IH.
  intros y Hy. apply H. right. assumption.
Qed.

(** C7 on the code.  In the loop
    [for _, v = range items { It("desc", func() { _ = v }) }] the blank key
    is assigned, not declared, and has no object; nor has the blank
    identifier on the left of [_ = v] inside the closure, which denotes no
    declaration at all.  The extractor keeps the key, its missing object
    enters the list of the loop, and the comparison takes two missing
    objects for the same one: the check reports the [_] of the closure, at
    position 220, as a loop variable, next to [v].  A key that is no
    identifier, as in [for a[0] = range items { It("desc", func() { _ = 1 }) }],
    has the same effect through a nil identifier, which the counting-loop
    branch of the extractor rejects and the collection-loop branch keeps. *)
Theorem C7_missing_object_matches :
  getLoopNodeIdentifiersObjects Examples.assignPass Examples.blankAssignLoop
    = ret [None; Some 3%nat]
  /\ Objects Examples.assignPass (mkIdent 220 "_") = None
  /\ checkAndReportLoopGinkgo Examples.assignPass Examples.blankAssignLoop
     = ([ginkgoDiagnostic (mkIdent 220 "_"); ginkgoDiagnostic (mkIdent 224 "v")],
        Returned tt)
  /\ getLoopVarsIdentifiers Examples.indexKeyLoop = ret [None]
  /\ checkAndReportLoopGinkgo Examples.assignPass Examples.indexKeyLoop
     = ([ginkgoDiagnostic (mkIdent 220 "_")], Returned tt).
Proof. repeat split; reflexivity. Qed.

(** ** The loop variable extractor *)

(** C8, as the code has it.  For a collection loop the objects of the loop
    are those of the key and of the value that are present in the loop node,
    key first; a blank identifier is a present binding like any other and
    its object is among them; only an absent key or value contributes
    nothing, so that the list is empty exactly when both are absent. *)
Theorem C8_collection_loop_vars pass For Key Value X Body :
  getLoopNodeIdentifiersObjects pass (RangeStmt For Key Value X Body) =
    ret (map (fun e => ObjectOf pass (exprToIdent (Some e)))
           (optToList Key ++ optToList Value))
  /\ (getLoopVarsIdentifiers (RangeStmt For Key Value X Body) = ret []
      <-> Key = None /\ Value = None)
  /\ (forall id,
        Key = Some (NIdent id) \/ Value = Some (NIdent id) ->
        exists objs,
          getLoopNodeIdentifiersObjects pass (RangeStmt For Key Value X Body) = ret objs
          /\ In (Objects pass id) objs).
Proof.
  unfold getLoopNodeIdentifiersObjects.
  cbn [getLoopVarsIdentifiers]. unfold slices.Map, slices.Filter.
  split; [|split].
  - destruct Key, Value; reflexivity.
  - destruct Key, Value; cbn; split; intros H;
      try discriminate; try (destruct H; discriminate); auto.
  - intros id [-> | ->].
    + eexists. split; [reflexivity|]. cbn. destruct Value; cbn; auto.
    + eexists. split; [reflexivity|]. destruct Key; cbn; auto.
Qed.

(** C8 at the loop [for _, v := range items { ... }]: the object of the
    blank key is among the objects of the loop. *)
Lemma C8_collection_loop_vars_witness :
  exists objs,
    getLoopNodeIdentifiersObjects Examples.pass Examples.blankKeyLoop = ret objs
    /\ In (Objects Examples.pass (mkIdent 10 "_")) objs.
Proof.
  exact (proj2 (proj2 (C8_collection_loop_vars Examples.pass 5
                         (Some (Examples.ident 10 "_")) (Some (Examples.ident 13 "v"))
                         (Examples.ident 20 "items")
                         (BlockStmt 25 [ExprStmt (Examples.runCallExpr 0)])))
           (mkIdent 10 "_") (or_introl eq_refl)).
Defined.

(** C8 as stated fails: for [for _, v := range items { ... }] the extractor
    returns the blank key next to [v], where the bindings that are present
    and not blank are [v] alone; for [for _, _ = range items { }] it returns
    both blank identifiers, not the empty list. *)
Lemma C8_counterexample :
  getLoopVarsIdentifiers Examples.blankKeyLoop
    = ret [Some (mkIdent 10 "_"); Some (mkIdent 13 "v")]
  /\ specCollectionLoopVars (Some (Examples.ident 10 "_")) (Some (Examples.ident 13 "v"))
     = [Some (mkIdent 13 "v")]
  /\ getLoopVarsIdentifiers Examples.blankBothLoop
     = ret [Some (mkIdent 10 "_"); Some (mkIdent 13 "_")]
  /\ specCollectionLoopVars (Some (Examples.ident 10 "_")) (Some (Examples.ident 13 "_"))
     = [].
Proof. repeat split; reflexivity. Qed.

Lemma reject_all_nil (l : list Node) :
  (forall e, In e l -> exprToIdent (Some e) = None) ->
  slices.Reject (slices.Map (map (@Some Node) l) exprToIdent) isNilIdent = [].
Proof.
  unfold slices.Reject, slices.Map. intros H. apply filter_none.
  intros x Hx. rewrite map_map in Hx. apply in_map_iff in Hx.
  destruct Hx as (e & <- & He). rewrite (H e He). reflexivity.
Qed.

(** C9.  On a counting loop the extractor never faults; when the
    initializer is absent or is not an assignment it returns the empty
    list, and so it does when the initializer is an assignment none of whose
    left-hand sides is an identifier or a selector. *)
Theorem C9_counting_loop_vars For Init Cond Post Body :
  (exists idents, getLoopVarsIdentifiers (ForStmt For Init Cond Post Body) = ret idents)
  /\ ((forall Lhs0 LhsRest Rhs, Init <> Some (AssignStmt Lhs0 LhsRest Rhs)) ->
      getLoopVarsIdentifiers (ForStmt For Init Cond Post Body) = ret [])
  /\ (forall Lhs0 LhsRest Rhs,
        Init = Some (AssignStmt Lhs0 LhsRest Rhs) ->
        (forall e, In e (Lhs0 :: LhsRest) -> exprToIdent (Some e) = None) ->
        getLoopVarsIdentifiers (ForStmt For Init Cond Post Body) = ret []).
Proof.
  split; [|split].
  - apply getLoopVarsIdentifiers_loop. reflexivity.
  - intros H. cbn [getLoopVarsIdentifiers].
    destruct Init as [[]|]; try reflexivity. destruct (H _ _ _ eq_refl).
  - intros Lhs0 LhsRest Rhs -> H. cbn [getLoopVarsIdentifiers].
    rewrite (reject_all_nil _ H). reflexivity.
Qed.

(** C9 at the loop [for ; ; { }], which has no initializer. *)
Lemma C9_counting_loop_vars_witness :
  getLoopVarsIdentifiers Examples.bareForLoop = ret [].
Proof.
  refine (proj1 (proj2 (C9_counting_loop_vars 5 None None None (BlockStmt 9 []))) _).
  intros Lhs0 LhsRest Rhs H. discriminate H.
Defined.

(** ** The allow-list of the Spec Call Finder *)

Lemma ginkgoPaths_spec (path : string) :
  existsb (String.eqb path) ginkgoPaths = true
  <-> path = "github.com/onsi/ginkgo/v2" \/ path = "github.com/onsi/ginkgo".
Proof.
  unfold ginkgoPaths. cbn [existsb]. rewrite orb_false_r, orb_true_iff.
  rewrite !String.eqb_eq. reflexivity.
Qed.

Lemma isGinkgoItCall_shape pass x :
  isGinkgoItCall pass x = true ->
  exists Fun Args id obj path,
    x = CallExpr Fun Args
    /\ callIdentifierOf Fun = Some id /\ Name id = "It"
    /\ Objects pass id = Some obj /\ PkgPath pass obj = Some path
    /\ (path = "github.com/onsi/ginkgo/v2" \/ path = "github.com/onsi/ginkgo").
Proof.
  unfold isGinkgoItCall.
  destruct x as [| | Fun Args | | | | | | | | | |]; try discriminate.
  destruct (callIdentifierOf Fun) as [id|] eqn:Ei; [|discriminate].
  intros H. apply andb_true_iff in H. destruct H as [Hn H].
  destruct (Objects pass id) as [obj|] eqn:Eo; [|discriminate].
  destruct (PkgPath pass obj) as [path|] eqn:Ep; [|discriminate].
  apply String.eqb_eq in Hn. apply ginkgoPaths_spec in H.
  exists Fun, Args, id, obj, path. auto 7.
Qed.

(** C10.  At a call whose callee identifier (the selected member of a
    selector, or a bare identifier) is named [It] and is declared in the
    package of path [path], the visitor of the Spec Call Finder stores the
    call exactly when [path] is one of the two Ginkgo paths, and passes on
    with its state unchanged exactly when it is neither.  Whatever
    [findGinkgoItCalls] returns is a call of the tree whose callee is named
    [It] and declared in one of the two packages, and, unless the search
    faults, a tree that holds such a call makes it return a call. *)
Theorem C10_ginkgo_allow_list pass :
  (forall Fun Args id obj path s,
     callIdentifierOf Fun = Some id -> Name id = "It" ->
     Objects pass id = Some obj -> PkgPath pass obj = Some path ->
     (findGinkgoItCallsVisit pass (Some (CallExpr Fun Args)) s
        = ret (false, Some (mkCall Fun Args))
      <-> path = "github.com/onsi/ginkgo/v2" \/ path = "github.com/onsi/ginkgo")
     /\ (findGinkgoItCallsVisit pass (Some (CallExpr Fun Args)) s = ret (true, s)
         <-> path <> "github.com/onsi/ginkgo/v2" /\ path <> "github.com/onsi/ginkgo"))
  /\ (forall root c,
        outcome (findGinkgoItCalls pass root) = Returned (Some c) ->
        In (callNode c) (preorder root)
        /\ exists id obj path,
             callIdentifierOf (CallFun c) = Some id /\ Name id = "It"
             /\ Objects pass id = Some obj /\ PkgPath pass obj = Some path
             /\ (path = "github.com/onsi/ginkgo/v2" \/ path = "github.com/onsi/ginkgo"))
  /\ (forall root result,
        outcome (findGinkgoItCalls pass root) = Returned result ->
        (exists x, In x (preorder root) /\ isGinkgoItCall pass x = true) ->
        result <> None).
Proof.
  split; [|split].
  - intros Fun Args id obj path s Hid Hname Hobj Hpkg.
    assert (E : findGinkgoItCallsVisit pass (Some (CallExpr Fun Args)) s =
                if existsb (String.eqb path) ginkgoPaths
                then ret (false, Some (mkCall Fun Args)) else ret (true, s)).
    { unfold findGinkgoItCallsVisit, isGinkgoIdentifier, ObjectOf.
      rewrite Hid, Hname, Hobj, Hpkg. cbn [String.eqb Ascii.eqb Bool.eqb andb].
      rewrite bind_ret_l. unfold ginkgoPaths. cbn [existsb].
      rewrite orb_false_r. reflexivity. }
    rewrite E. pose proof (ginkgoPaths_spec path) as Hp.
    destruct (existsb (String.eqb path) ginkgoPaths).
    + split; split; intros H.
      * apply Hp. reflexivity.
      * reflexivity.
      * discriminate H.
      * destruct H as [H1 H2]. destruct (proj1 Hp eq_refl); contradiction.
    + split; split; intros H.
      * discriminate H.
      * apply Hp in H. discriminate H.
      * split; intros ->; [assert (false = true) by (apply Hp; auto)
                          | assert (false = true) by (apply Hp; auto)];
          discriminate.
      * reflexivity.
  - intros root c H.
    destruct (@findGinkgoItCalls_sound _ _ _ H) as [Hin Hm]. split; [exact Hin|].
    destruct (@isGinkgoItCall_shape _ _ Hm)
      as (Fun & Args & id & obj & path & Ec & Hid & Hn & Ho & Hp & Hpath).
    destruct c as [F A]. unfold callNode in Ec. cbn [CallFun CallArgs] in *.
    inversion Ec; subst. exists id, obj, path. auto 6.
  - intros root result H Hex. exact (@findGinkgoItCalls_complete _ _ _ H Hex).
Qed.

(** C10 at a call of an [It] that another package declares: it is passed
    over. *)
Lemma C10_ginkgo_allow_list_witness :
  findGinkgoItCallsVisit Examples.pass (Some Examples.foreignItCall) None
    = ret (true, None).
Proof.
  refine (proj2 (proj2 (proj1 (C10_ginkgo_allow_list Examples.pass)
                          (Examples.ident 400 "It")
                          (CallArgs (Examples.itCall 400 420))
                          (mkIdent 400 "It") 10%nat "example.com/pkg" None
                          eq_refl eq_refl eq_refl eq_refl)) _).
  split; intros H; discriminate H.
Defined.

(** * Further properties of the code *)

(** ** Faults of a walk come from the visitor *)

Lemma bind_inv_panicked (A B : Type) (m : M A) (k : A -> M B) d r :
  bind m k = (d, Panicked r) ->
  m = (d, Panicked r)
  \/ exists d1 a d2, m = (d1, Returned a) /\ k a = (d2, Panicked r) /\ d = d1 ++ d2.
Proof.
  destruct m as [d1 [a | r1]]; cbn [bind].
  - destruct (k a) as [d2 o] eqn:E. cbn [fst snd]. intros H. inversion H; subst.
    right. exists d1, a, d2. auto.
  - intros H. inversion H; subst. left. reflexivity.
Qed.

Section VisitorFaults.
Variable S : Type.
Variable f : Visitor S.
Variable Q : PanicValue -> Prop.
Hypothesis f_faults : forall o s d r, f o s = (d, Panicked r) -> Q r.

Lemma visitNil_fault s d r : visitNil f s = (d, Panicked r) -> Q r.
Proof.
  unfold visitNil. intros H. apply bind_inv_panicked in H.
  destruct H as [H | (d1 & a & d2 & _ & H & _)]; [eapply f_faults; eauto|].
  discriminate H.
Qed.

Lemma walkList_fault (l : list Node) :
  Forall (fun n => forall s d r, Inspect f n s = (d, Panicked r) -> Q r) l ->
  forall s d r, walkList f l s = (d, Panicked r) -> Q r.
Proof.
  induction 1 as [|c l Hc _ IHl]; intros s d r H; [discriminate H|].
  cbn [walkList] in H. apply bind_inv_panicked in H.
  destruct H as [H | (d1 & a & d2 & _ & H & _)]; eauto.
Qed.

Lemma Inspect_fault (n : Node) s d r : Inspect f n s = (d, Panicked r) -> Q r.
Proof.
  revert s d r. induction n as [n IH] using Node_children_ind. intros s d r H.
  rewrite Inspect_unfold in H. apply bind_inv_panicked in H.
  destruct H as [H | (d1 & [b s1] & d2 & _ & H & _)]; [eapply f_faults; eauto|].
  cbn [fst snd] in H. destruct b; [|discriminate H].
  apply bind_inv_panicked in H.
  destruct H as [H | (d3 & s2 & d4 & _ & H & _)].
  - eapply walkList_fault; eauto.
  - eapply visitNil_fault; eauto.
Qed.
End VisitorFaults.

(** A walk whose visitor returns at every node of the tree returns. *)
Lemma Inspect_returns (S : Type) (f : Visitor S) (ok : Node -> bool) (root : Node) (s : S) :
  (forall s d r, f None s <> (d, Panicked r)) ->
  (forall x s d r, ok x = true -> f (Some x) s <> (d, Panicked r)) ->
  forallb ok (preorder root) = true ->
  exists d s', Inspect f root s = (d, Returned s').
Proof.
  intros Hnil Hnode Hok.
  destruct (Inspect f root s) as [d [s' | r]] eqn:E; [eauto|]. exfalso.
  revert Hok s d r E.
  induction root as [n IH] using Node_children_ind. intros Hok s d r H.
  rewrite preorder_unfold in Hok. cbn [forallb] in Hok.
  apply andb_true_iff in Hok. destruct Hok as [Hn Hkids].
  rewrite Inspect_unfold in H. apply bind_inv_panicked in H.
  destruct H as [H | (d1 & [b s1] & d2 & _ & H & _)]; [exact (Hnode _ _ _ _ Hn H)|].
  cbn [fst snd] in H. destruct b; [|discriminate H].
  apply bind_inv_panicked in H.
  destruct H as [H | (d3 & s2 & d4 & _ & H & _)].
  - unfold walkChildren in H. clear Hn.
    revert Hkids s1 d2 H.
    induction IH as [|c l Hc _ IHl]; intros Hkids s1 d2 H; [discriminate H|].
    cbn [flat_map] in Hkids. rewrite forallb_app in Hkids.
    apply andb_true_iff in Hkids. destruct Hkids as [Hc' Hl'].
    cbn [walkList] in H. apply bind_inv_panicked in H.
    destruct H as [H | (d5 & a & d6 & _ & H & _)].
    + exact (Hc Hc' _ _ _ H).
    + exact (IHl Hl' _ _ H).
  - unfold visitNil in H. apply bind_inv_panicked in H.
    destruct H as [H | (d5 & a & d6 & _ & H & _)]; [exact (Hnil _ _ _ H)|discriminate H].
Qed.

(** ** What the call finders return and when they fault *)

Lemma noneOf_spec (matches : Node -> bool) (root : Node) :
  noneOf matches root = true
  <-> forall x, In x (preorder root) -> matches x = false.
Proof.
  unfold noneOf. rewrite forallb_forall. split; intros H x Hx.
  - apply negb_true_iff. apply H. assumption.
  - apply negb_true_iff. apply H. assumption.
Qed.

(** X1.  Unless the search faults, [findTestingTCalls] returns no call
    exactly when no node of the tree is a call [x.m(...)] with [x] of type
    [*testing.T] and [m] the method asked for; a call it returns is such a
    call of the tree; and when exactly one node of the tree is such a call,
    that call is returned. *)
Theorem X1_findTestingTCalls_result pass root methodName result :
  outcome (findTestingTCalls pass root methodName) = Returned result ->
  (result = None <-> noneOf (isTestingTCall pass methodName) root = true)
  /\ (forall c, result = Some c ->
        In (callNode c) (preorder root)
        /\ isTestingTCall pass methodName (callNode c) = true)
  /\ (forall x,
        In x (preorder root) -> isTestingTCall pass methodName x = true ->
        (forall y, In y (preorder root) ->
                   isTestingTCall pass methodName y = true -> y = x) ->
        exists c, result = Some c /\ callNode c = x).
Proof.
  intros H.
  assert (Hsound : forall c, result = Some c ->
            In (callNode c) (preorder root)
            /\ isTestingTCall pass methodName (callNode c) = true).
  { intros c ->. apply (@findTestingTCalls_sound _ _ _ _ H). }
  assert (Hcomplete : (exists x, In x (preorder root)
                                 /\ isTestingTCall pass methodName x = true) ->
                      result <> None).
  { apply (@findTestingTCalls_complete _ _ _ _ H). }
  split; [|split].
  - rewrite noneOf_spec. split.
    + intros -> x Hx. destruct (isTestingTCall pass methodName x) eqn:E; [|reflexivity].
      exfalso. apply Hcomplete; eauto.
    + intros Hnone. destruct result as [c|]; [|reflexivity].
      destruct (Hsound c eq_refl) as [Hin Hm]. rewrite (Hnone _ Hin) in Hm.
      discriminate Hm.
  - exact Hsound.
  - intros x Hx Hm Huniq. destruct result as [c|].
    + exists c. split; [reflexivity|].
      destruct (Hsound c eq_refl) as [Hin Hc]. apply Huniq; assumption.
    + exfalso. apply Hcomplete; eauto.
Qed.

(** X1 at the body of a loop with one subtest. *)
Lemma X1_findTestingTCalls_result_witness :
  exists c,
    Some (Examples.runCall 0) = Some c
    /\ callNode c = Examples.runCallExpr 0.
Proof.
  refine (proj2 (proj2 (@X1_findTestingTCalls_result Examples.pass
                          (BlockStmt 25 [ExprStmt (Examples.runCallExpr 0)]) "Run"
                          (Some (Examples.runCall 0)) eq_refl))
            (Examples.runCallExpr 0) _ eq_refl _).
  - cbn. auto.
  - intros y Hy Hm.
    assert (E : filter (isTestingTCall Examples.pass "Run")
                  (preorder (BlockStmt 25 [ExprStmt (Examples.runCallExpr 0)]))
                = [Examples.runCallExpr 0]) by reflexivity.
    assert (Hf : In y (filter (isTestingTCall Examples.pass "Run")
                         (preorder (BlockStmt 25 [ExprStmt (Examples.runCallExpr 0)]))))
      by (apply filter_In; auto).
    rewrite E in Hf. destruct Hf as [<- | []]. reflexivity.
Defined.

Lemma findTestingTCallsVisit_fault pass methodName o s d r :
  findTestingTCallsVisit pass methodName o s = (d, Panicked r) ->
  r = PanicNilDereference
  /\ exists x, o = Some x /\ receiverResolves pass x = false.
Proof.
  unfold findTestingTCallsVisit, receiverResolves, ObjectOf.
  destruct o as [x|]; [|discriminate].
  destruct x as [| | Fun Args | | | | | | | | | |]; try discriminate.
  destruct Fun as [| X Sel | | | | | | | | | | |]; try discriminate.
  destruct X as [recv | | | | | | | | | | | |]; try discriminate.
  destruct (Objects pass recv) as [obj|] eqn:Eo.
  - destruct (_ && _); discriminate.
  - intros H. inversion H; subst. split; [reflexivity|].
    eexists. split; [reflexivity|]. cbn. rewrite Eo. reflexivity.
Qed.

Lemma findTestingTCalls_fault_kind pass root methodName r :
  outcome (findTestingTCalls pass root methodName) = Panicked r ->
  r = PanicNilDereference.
Proof.
  intros H. unfold findTestingTCalls, outcome in H.
  destruct (Inspect (findTestingTCallsVisit pass methodName) root None)
    as [d o] eqn:E. cbn in H. subst o.
  eapply (@Inspect_fault _ (findTestingTCallsVisit pass methodName)
            (fun r => r = PanicNilDereference)); [|exact E].
  intros o s d0 r0 H0. apply findTestingTCallsVisit_fault in H0. apply H0.
Qed.

Lemma findTestingTCalls_returns pass root methodName :
  forallb (receiverResolves pass) (preorder root) = true ->
  exists result, findTestingTCalls pass root methodName = ret result.
Proof.
  intros Hok.
  destruct (@Inspect_returns _ (findTestingTCallsVisit pass methodName)
              (receiverResolves pass) root None) as (d & s' & E).
  - intros s d r H. discriminate H.
  - intros x s d r Hx H. apply findTestingTCallsVisit_fault in H.
    destruct H as (_ & y & Ey & Hy). inversion Ey; subst y.
    rewrite Hx in Hy. discriminate Hy.
  - exact Hok.
  - exists s'. apply silent_returned; [apply findTestingTCalls_silent|].
    unfold findTestingTCalls, outcome. rewrite E. reflexivity.
Qed.

(** X2.  [findTestingTCalls] reports nothing; the only fault it can raise
    is a nil dereference; and it returns whenever the receiver of every call
    [recv.m(...)] of the tree has an object. *)
Theorem X2_findTestingTCalls_faults pass root methodName :
  reported (findTestingTCalls pass root methodName) = []
  /\ (forall r, outcome (findTestingTCalls pass root methodName) = Panicked r ->
                r = PanicNilDereference)
  /\ (forallb (receiverResolves pass) (preorder root) = true ->
      exists result, findTestingTCalls pass root methodName = ret result).
Proof.
  split; [apply findTestingTCalls_silent|split].
  - apply findTestingTCalls_fault_kind.
  - apply findTestingTCalls_returns.
Qed.

(** X2 at a body with two subtests, where every receiver resolves. *)
Lemma X2_findTestingTCalls_faults_witness :
  exists result, findTestingTCalls Examples.pass Examples.twoRunsBody "Run" = ret result.
Proof.
  exact (proj2 (proj2 (X2_findTestingTCalls_faults Examples.pass
                         Examples.twoRunsBody "Run")) eq_refl).
Defined.

Lemma isGinkgoIdentifier_fault pass id d r :
  isGinkgoIdentifier pass id = (d, Panicked r) ->
  r = PanicNilDereference
  /\ (Objects pass id = None
      \/ exists obj, Objects pass id = Some obj /\ PkgPath pass obj = None).
Proof.
  unfold isGinkgoIdentifier, ObjectOf.
  destruct (Objects pass id) as [obj|] eqn:Eo.
  - destruct (PkgPath pass obj) as [path|] eqn:Ep; [discriminate|].
    intros H. inversion H; subst. split; [reflexivity|]. right. eauto.
  - intros H. inversion H; subst. auto.
Qed.

Lemma findGinkgoItCallsVisit_fault pass o s d r :
  findGinkgoItCallsVisit pass o s = (d, Panicked r) ->
  r = PanicNilDereference
  /\ exists x, o = Some x /\ itCalleeResolves pass x = false.
Proof.
  unfold findGinkgoItCallsVisit.
  destruct o as [x|]; [|discriminate].
  destruct x as [| | Fun Args | | | | | | | | | |]; try discriminate.
  destruct (callIdentifierOf Fun) as [id|] eqn:Ei; [|discriminate].
  destruct (String.eqb (Name id) "It") eqn:En; [|discriminate].
  intros H. apply bind_inv_panicked in H.
  destruct H as [H | (d1 & b & d2 & _ & H & _)];
    [|destruct b; discriminate H].
  apply isGinkgoIdentifier_fault in H. destruct H as [-> H].
  split; [reflexivity|]. eexists. split; [reflexivity|].
  unfold itCalleeResolves. rewrite Ei, En.
  destruct H as [-> | (obj & -> & ->)]; reflexivity.
Qed.

Lemma findGinkgoItCalls_fault_kind pass root r :
  outcome (findGinkgoItCalls pass root) = Panicked r -> r = PanicNilDereference.
Proof.
  intros H. unfold findGinkgoItCalls, outcome in H.
  destruct (Inspect (findGinkgoItCallsVisit pass) root None) as [d o] eqn:E.
  cbn in H. subst o.
  eapply (@Inspect_fault _ (findGinkgoItCallsVisit pass)
            (fun r => r = PanicNilDereference)); [|exact E].
  intros o s d0 r0 H0. apply findGinkgoItCallsVisit_fault in H0. apply H0.
Qed.

Lemma findGinkgoItCalls_returns pass root :
  forallb (itCalleeResolves pass) (preorder root) = true ->
  exists result, findGinkgoItCalls pass root = ret result.
Proof.
  intros Hok.
  destruct (@Inspect_returns _ (findGinkgoItCallsVisit pass)
              (itCalleeResolves pass) root None) as (d & s' & E).
  - intros s d r H. discriminate H.
  - intros x s d r Hx H. apply findGinkgoItCallsVisit_fault in H.
    destruct H as (_ & y & Ey & Hy). inversion Ey; subst y.
    rewrite Hx in Hy. discriminate Hy.
  - exact Hok.
  - exists s'. apply silent_returned; [apply findGinkgoItCalls_silent|].
    unfold findGinkgoItCalls, outcome. rewrite E. reflexivity.
Qed.

(** X3.  [findGinkgoItCalls] reports nothing; the only fault it can raise
    is a nil dereference; and it returns whenever, at every call of the tree
    whose callee identifier is named [It], that identifier has an object
    and the object a package.  Callees of any other name are never looked
    up. *)
Theorem X3_findGinkgoItCalls_faults pass root :
  reported (findGinkgoItCalls pass root) = []
  /\ (forall r, outcome (findGinkgoItCalls pass root) = Panicked r ->
                r = PanicNilDereference)
  /\ (forallb (itCalleeResolves pass) (preorder root) = true ->
      exists result, findGinkgoItCalls pass root = ret result).
Proof.
  split; [apply findGinkgoItCalls_silent|split].
  - apply findGinkgoItCalls_fault_kind.
  - apply findGinkgoItCalls_returns.
Qed.

(** X3 at a body with two spec registrations. *)
Lemma X3_findGinkgoItCalls_faults_witness :
  exists result, findGinkgoItCalls Examples.pass Examples.twoItsBody = ret result.
Proof.
  exact (proj2 (proj2 (X3_findGinkgoItCalls_faults Examples.pass
                         Examples.twoItsBody)) eq_refl).
Defined.

(** ** The closure argument *)

(** X4.  [getSubtestClosure] depends on the second argument alone: it
    faults, with an index fault that names the number of arguments, exactly
    when the call has fewer than two arguments; it returns the function
    literal exactly when the second argument is one; and it returns no
    closure, without a fault, exactly when the second argument is some other
    expression. *)
Theorem X4_getSubtestClosure_cases (runCall : CallExprNode) :
  ((List.length (CallArgs runCall) < 2)%nat
   <-> getSubtestClosure runCall
       = panic (PanicIndexOutOfRange 1 (List.length (CallArgs runCall))))
  /\ (forall closure,
        nth_error (CallArgs runCall) 1 = Some (funcLitNode closure)
        <-> getSubtestClosure runCall = ret (Some closure))
  /\ ((exists e, nth_error (CallArgs runCall) 1 = Some e
                 /\ forall ty body, e <> FuncLit ty body)
      <-> getSubtestClosure runCall = ret None).
Proof.
  unfold getSubtestClosure.
  destruct (nth_error (CallArgs runCall) 1) as [e|] eqn:E.
  - assert (Hlen : ~ (List.length (CallArgs runCall) < 2)%nat).
    { intros Hl.
      assert (Hn : nth_error (CallArgs runCall) 1 = None)
        by (apply nth_error_None; lia).
      rewrite E in Hn. discriminate Hn. }
    split; [|split].
    + split; [intros Hl; contradiction|].
      destruct e; discriminate.
    + intros [ty body]. unfold funcLitNode. cbn [FuncLitType FuncLitBody].
      split.
      * intros H. inversion H; subst. reflexivity.
      * destruct e; try discriminate. intros H. inversion H; subst. reflexivity.
    + split.
      * intros (e' & He & Hno). inversion He; subst e'.
        destruct e; try reflexivity. destruct (Hno e1 e2). reflexivity.
      * intros H. exists e. split; [reflexivity|].
        intros ty body ->. discriminate H.
  - assert (Hlen : (List.length (CallArgs runCall) < 2)%nat).
    { apply nth_error_None in E. lia. }
    split; [|split].
    + split; auto.
    + intros closure. split; discriminate.
    + split; [intros (e & He & _); discriminate He | discriminate].
Qed.

(** X4 at a call with a single argument. *)
Lemma X4_getSubtestClosure_cases_witness :
  getSubtestClosure Examples.oneArgRunCall = panic (PanicIndexOutOfRange 1 1).
Proof.
  exact (proj1 (proj1 (X4_getSubtestClosure_cases Examples.oneArgRunCall)) (le_n 2)).
Defined.

(** ** The two checks of a loop *)

Lemma getLoopNodeIdentifiersObjects_loop pass loopNode :
  isLoop loopNode = true ->
  exists objs, getLoopNodeIdentifiersObjects pass loopNode = ret objs.
Proof.
  intros H. unfold getLoopNodeIdentifiersObjects.
  destruct (getLoopVarsIdentifiers_loop _ H) as [idents ->].
  rewrite bind_ret_l. eauto.
Qed.

Lemma getLoopNodeIdentifiersObjects_not_loop pass loopNode :
  isLoop loopNode = false ->
  getLoopNodeIdentifiersObjects pass loopNode
  = panic (PanicString "unexpected node type").
Proof. destruct loopNode; try discriminate; reflexivity. Qed.

Lemma getLoopBody_loop loopNode :
  isLoop loopNode = true -> exists body, getLoopBody loopNode = Some body.
Proof. destruct loopNode; try discriminate; cbn; eauto. Qed.

(** The shapes in which the Subtest check ends: with a fault and nothing
    reported, quietly, or with the walk of a closure. *)
Lemma checkAndReportLoop_shape pass loopNode :
  (exists r, checkAndReportLoop pass loopNode = panic r)
  \/ checkAndReportLoop pass loopNode = ret tt
  \/ exists objs marker closure,
       getLoopNodeIdentifiersObjects pass loopNode = ret objs
       /\ checkAndReportLoop pass loopNode
          = (map goTestDiagnostic (capturedIdentsAfter pass objs marker closure),
             Returned tt).
Proof.
  unfold checkAndReportLoop.
  destruct (isLoop loopNode) eqn:L;
    [|rewrite (getLoopNodeIdentifiersObjects_not_loop pass _ L); left; eexists; reflexivity].
  destruct (getLoopNodeIdentifiersObjects_loop pass _ L) as [objs Eobjs].
  destruct (getLoopBody_loop _ L) as [body Ebody].
  unfold loopBodyOrFault. rewrite Eobjs, bind_ret_l, Ebody, bind_ret_l.
  pose proof (findTestingTCalls_silent pass body "Run") as Hs.
  destruct (findTestingTCalls pass body "Run") as [d [[runCall|] | r]];
    cbn in Hs; subst d; [| right; left; reflexivity | left; eexists; reflexivity].
  change (@pair (list Diagnostic) (Outcome (option CallExprNode)) []
            (Returned (Some runCall))) with (ret (Some runCall)).
  rewrite bind_ret_l. unfold getSubtestClosure.
  destruct (nth_error (CallArgs runCall) 1) as [e|];
    [|left; eexists; reflexivity].
  destruct e; try (right; left; reflexivity).
  rewrite bind_ret_l.
  pose proof (isParallelFunctionClosure_silent pass (mkFuncLit e1 e2)) as Hp.
  destruct (isParallelFunctionClosure pass (mkFuncLit e1 e2)) as [d [[marker|] | r]];
    cbn in Hp; subst d; [| right; left; reflexivity | left; eexists; reflexivity].
  right. right. exists objs, marker, (funcLitNode (mkFuncLit e1 e2)).
  split; [reflexivity|].
  change (@pair (list Diagnostic) (Outcome (option Pos)) [] (Returned (Some marker)))
    with (ret (Some marker)).
  rewrite bind_ret_l. apply Inspect_checkAndReportLoopVisit.
Qed.

Lemma checkAndReportLoopGinkgo_shape pass loopNode :
  (exists r, checkAndReportLoopGinkgo pass loopNode = panic r)
  \/ checkAndReportLoopGinkgo pass loopNode = ret tt
  \/ exists objs closure,
       getLoopNodeIdentifiersObjects pass loopNode = ret objs
       /\ checkAndReportLoopGinkgo pass loopNode
          = (map ginkgoDiagnostic (capturedIdents pass objs closure), Returned tt).
Proof.
  unfold checkAndReportLoopGinkgo.
  destruct (isLoop loopNode) eqn:L;
    [|rewrite (getLoopNodeIdentifiersObjects_not_loop pass _ L); left; eexists; reflexivity].
  destruct (getLoopNodeIdentifiersObjects_loop pass _ L) as [objs Eobjs].
  destruct (getLoopBody_loop _ L) as [body Ebody].
  unfold loopBodyOrFault. rewrite Eobjs, bind_ret_l, Ebody, bind_ret_l.
  pose proof (findGinkgoItCalls_silent pass body) as Hs.
  destruct (findGinkgoItCalls pass body) as [d [[itCall|] | r]];
    cbn in Hs; subst d; [| right; left; reflexivity | left; eexists; reflexivity].
  change (@pair (list Diagnostic) (Outcome (option CallExprNode)) []
            (Returned (Some itCall))) with (ret (Some itCall)).
  rewrite bind_ret_l. unfold getSubtestClosure.
  destruct (nth_error (CallArgs itCall) 1) as [e|];
    [|left; eexists; reflexivity].
  destruct e; try (right; left; reflexivity).
  rewrite bind_ret_l.
  right. right. exists objs, (funcLitNode (mkFuncLit e1 e2)).
  split; [reflexivity|]. apply Inspect_checkAndReportLoopGinkgoVisit.
Qed.

(** X5.  A matched call whose second argument is present but is not a
    function literal is no match and no error: the Subtest check, and the
    Spec check alike, returns without a report. *)
Theorem X5_argument_not_a_literal pass loopNode body call e :
  getLoopBody loopNode = Some body ->
  nth_error (CallArgs call) 1 = Some e ->
  (forall ty b, e <> FuncLit ty b) ->
  (outcome (findTestingTCalls pass body "Run") = Returned (Some call) ->
   checkAndReportLoop pass loopNode = ret tt)
  /\ (outcome (findGinkgoItCalls pass body) = Returned (Some call) ->
      checkAndReportLoopGinkgo pass loopNode = ret tt).
Proof.
  intros Hbody Hnth Hno.
  destruct (getLoopNodeIdentifiersObjects_loop pass _ (getLoopBody_isLoop _ Hbody))
    as [objs Eobjs].
  assert (Hc : getSubtestClosure call = ret None).
  { unfold getSubtestClosure. rewrite Hnth.
    destruct e; try reflexivity. destruct (Hno e1 e2). reflexivity. }
  split; intros Hcall.
  - unfold checkAndReportLoop, loopBodyOrFault.
    rewrite Eobjs, bind_ret_l, Hbody, bind_ret_l.
    rewrite (@silent_returned _ _ _ (findTestingTCalls_silent pass body "Run") Hcall).
    rewrite bind_ret_l, Hc, bind_ret_l. reflexivity.
  - unfold checkAndReportLoopGinkgo, loopBodyOrFault.
    rewrite Eobjs, bind_ret_l, Hbody, bind_ret_l.
    rewrite (@silent_returned _ _ _ (findGinkgoItCalls_silent pass body) Hcall).
    rewrite bind_ret_l, Hc, bind_ret_l. reflexivity.
Qed.

(** X5 at the loop [for i, v := range items { t.Run(name, use) }]. *)
Lemma X5_argument_not_a_literal_witness :
  checkAndReportLoop Examples.pass Examples.namedFuncLoop = ret tt.
Proof.
  refine (proj1 (@X5_argument_not_a_literal Examples.pass Examples.namedFuncLoop
                   (BlockStmt 25 [ExprStmt (callNode Examples.namedFuncRunCall)])
                   Examples.namedFuncRunCall (Examples.ident 42 "use")
                   eq_refl eq_refl _) eq_refl).
  intros ty b H. discriminate H.
Defined.

(** X6.  A loop whose body holds neither a [Run] call on a test context nor
    an [It] call of Ginkgo gets no loop-variable diagnostic: whatever the
    function run on the loop reports is the report of a nil dereference at
    the loop, and when every receiver and every callee named [It] in the
    body resolves, it reports nothing at all. *)
Theorem X6_loop_without_calls pass loopNode body :
  getLoopBody loopNode = Some body ->
  noneOf (isTestingTCall pass "Run") body = true ->
  noneOf (isGinkgoItCall pass) body = true ->
  (forall d, In d (reported (checkLoopNode pass loopNode)) ->
             d = panicDiagnostic loopNode PanicNilDereference)
  /\ (forallb (receiverResolves pass) (preorder body) = true ->
      forallb (itCalleeResolves pass) (preorder body) = true ->
      checkLoopNode pass loopNode = ret tt).
Proof.
  intros Hbody Hrun Hit.
  destruct (getLoopNodeIdentifiersObjects_loop pass _ (getLoopBody_isLoop _ Hbody))
    as [objs Eobjs].
  assert (HA : checkAndReportLoop pass loopNode = ret tt
               \/ checkAndReportLoop pass loopNode = panic PanicNilDereference).
  { unfold checkAndReportLoop, loopBodyOrFault.
    rewrite Eobjs, bind_ret_l, Hbody, bind_ret_l.
    pose proof (findTestingTCalls_silent pass body "Run") as Hs.
    destruct (findTestingTCalls pass body "Run") as [d [[c|] | r]] eqn:E;
      cbn in Hs; subst d.
    - exfalso.
      assert (Ho : outcome (findTestingTCalls pass body "Run") = Returned (Some c))
        by (rewrite E; reflexivity).
      destruct (@findTestingTCalls_sound _ _ _ _ Ho) as [Hin Hm].
      rewrite (proj1 (noneOf_spec _ _) Hrun _ Hin) in Hm. discriminate Hm.
    - left. reflexivity.
    - right.
      assert (Ho : outcome (findTestingTCalls pass body "Run") = Panicked r)
        by (rewrite E; reflexivity).
      rewrite (findTestingTCalls_fault_kind _ _ _ Ho). reflexivity. }
  assert (HB : checkAndReportLoopGinkgo pass loopNode = ret tt
               \/ checkAndReportLoopGinkgo pass loopNode = panic PanicNilDereference).
  { unfold checkAndReportLoopGinkgo, loopBodyOrFault.
    rewrite Eobjs, bind_ret_l, Hbody, bind_ret_l.
    pose proof (findGinkgoItCalls_silent pass body) as Hs.
    destruct (findGinkgoItCalls pass body) as [d [[c|] | r]] eqn:E;
      cbn in Hs; subst d.
    - exfalso.
      assert (Ho : outcome (findGinkgoItCalls pass body) = Returned (Some c))
        by (rewrite E; reflexivity).
      destruct (@findGinkgoItCalls_sound _ _ _ Ho) as [Hin Hm].
      rewrite (proj1 (noneOf_spec _ _) Hit _ Hin) in Hm. discriminate Hm.
    - left. reflexivity.
    - right.
      assert (Ho : outcome (findGinkgoItCalls pass body) = Panicked r)
        by (rewrite E; reflexivity).
      rewrite (findGinkgoItCalls_fault_kind _ _ Ho). reflexivity. }
  split.
  - intros d. unfold checkLoopNode.
    destruct HA as [-> | ->]; destruct HB as [-> | ->]; cbn;
      intros H; repeat destruct H as [H | H]; try contradiction; auto.
  - intros Hr Hi. unfold checkLoopNode.
    destruct (findTestingTCalls_returns pass body "Run" Hr) as [r1 E1].
    destruct (findGinkgoItCalls_returns pass body Hi) as [r2 E2].
    assert (EA : checkAndReportLoop pass loopNode = ret tt).
    { destruct HA as [-> | HA]; [reflexivity|]. exfalso.
      unfold checkAndReportLoop, loopBodyOrFault in HA.
      rewrite Eobjs, bind_ret_l, Hbody, bind_ret_l, E1, bind_ret_l in HA.
      destruct r1 as [c|]; [|discriminate HA].
      assert (Ho : outcome (findTestingTCalls pass body "Run") = Returned (Some c))
        by (rewrite E1; reflexivity).
      destruct (@findTestingTCalls_sound _ _ _ _ Ho) as [Hin Hm].
      rewrite (proj1 (noneOf_spec _ _) Hrun _ Hin) in Hm. discriminate Hm. }
    assert (EB : checkAndReportLoopGinkgo pass loopNode = ret tt).
    { destruct HB as [-> | HB]; [reflexivity|]. exfalso.
      unfold checkAndReportLoopGinkgo, loopBodyOrFault in HB.
      rewrite Eobjs, bind_ret_l, Hbody, bind_ret_l, E2, bind_ret_l in HB.
      destruct r2 as [c|]; [|discriminate HB].
      assert (Ho : outcome (findGinkgoItCalls pass body) = Returned (Some c))
        by (rewrite E2; reflexivity).
      destruct (@findGinkgoItCalls_sound _ _ _ Ho) as [Hin Hm].
      rewrite (proj1 (noneOf_spec _ _) Hit _ Hin) in Hm. discriminate Hm. }
    rewrite EA, EB. reflexivity.
Qed.

(** X6 at the loop [for i, v := range items { use(v) }]. *)
Lemma X6_loop_without_calls_witness :
  checkLoopNode Examples.pass Examples.plainLoop = ret tt.
Proof.
  exact (proj2 (@X6_loop_without_calls Examples.pass Examples.plainLoop
                  (BlockStmt 25 [Examples.useV 30]) eq_refl eq_refl eq_refl)
           eq_refl eq_refl).
Defined.

(** X7.  What is not a loop has no body and no loop variables: on any node
    other than a counting or a collection loop [getLoopBody] returns nil and
    [getLoopVarsIdentifiers] faults with the text [unexpected node type],
    and on those nodes only; the function run on a loop node turns that
    fault into one diagnostic at the node. *)
Theorem X7_not_a_loop (n : Node) :
  (getLoopBody n = None <-> isLoop n = false)
  /\ (getLoopVarsIdentifiers n = panic (PanicString "unexpected node type")
      <-> isLoop n = false)
  /\ (isLoop n = false ->
      forall pass, checkLoopNode pass n
                   = ([panicDiagnostic n (PanicString "unexpected node type")],
                      Returned tt)).
Proof.
  split; [|split].
  - destruct n; cbn; split; intros H; try discriminate; reflexivity.
  - split.
    + intros H. destruct (isLoop n) eqn:L; [|reflexivity].
      destruct (getLoopVarsIdentifiers_loop _ L) as [ids E].
      rewrite E in H. discriminate H.
    + destruct n; try discriminate; reflexivity.
  - intros L pass. unfold checkLoopNode, checkAndReportLoop.
    rewrite (getLoopNodeIdentifiersObjects_not_loop pass _ L). reflexivity.
Qed.

(** X7 at an expression statement. *)
Lemma X7_not_a_loop_witness :
  checkLoopNode Examples.pass (Examples.useV 30)
  = ([panicDiagnostic (Examples.useV 30) (PanicString "unexpected node type")],
     Returned tt).
Proof.
  exact (proj2 (proj2 (X7_not_a_loop (Examples.useV 30))) eq_refl Examples.pass).
Defined.

(** ** What a loop binds *)

Lemma reject_nil_lhs (lhs : list Node) :
  slices.Reject (slices.Map (map (@Some Node) lhs) exprToIdent) isNilIdent
  = map (@Some Ident) (lhsIdents lhs).
Proof.
  unfold slices.Reject, slices.Map, lhsIdents.
  induction lhs as [|e lhs IH]; [reflexivity|].
  cbn [map filter flat_map]. rewrite map_app, <- IH.
  destruct (exprToIdent (Some e)); reflexivity.
Qed.

(** X8.  For a counting loop whose initializer is an assignment, the
    extractor returns the identifiers of the left-hand sides that are
    identifiers or selectors (the selected name), in order and without a
    nil entry; the right-hand sides and the other clauses play no part.
    When every left-hand side is an identifier these are the loop
    variables, one for one. *)
Theorem X8_counting_loop_bindings For Lhs0 LhsRest Rhs Cond Post Body :
  getLoopVarsIdentifiers (ForStmt For (Some (AssignStmt Lhs0 LhsRest Rhs)) Cond Post Body)
  = ret (map (@Some Ident) (lhsIdents (Lhs0 :: LhsRest)))
  /\ (forall id, In id (lhsIdents (Lhs0 :: LhsRest)) <->
                 exists e, In e (Lhs0 :: LhsRest)
                           /\ (e = NIdent id \/ exists X, e = SelectorExpr X id))
  /\ (forall ids, Lhs0 :: LhsRest = map NIdent ids ->
                  lhsIdents (Lhs0 :: LhsRest) = ids).
Proof.
  split; [|split].
  - cbn [getLoopVarsIdentifiers]. rewrite reject_nil_lhs. reflexivity.
  - intros id. unfold lhsIdents. rewrite in_flat_map. split.
    + intros (e & He & Hid). exists e. split; [assumption|].
      destruct e; cbn in Hid; try contradiction;
        destruct Hid as [<- | []]; eauto.
    + intros (e & He & [-> | (X & ->)]); eexists; (split; [eassumption|]);
        cbn; auto.
  - intros ids ->. unfold lhsIdents.
    induction ids as [|id ids IH]; [reflexivity|]. cbn. rewrite <- IH at 2.
    reflexivity.
Qed.

(** X8 at the loop [for i, j := 0, 1; ; { }]. *)
Lemma X8_counting_loop_bindings_witness :
  lhsIdents [Examples.ident 9 "i"; Examples.ident 12 "j"]
  = [mkIdent 9 "i"; mkIdent 12 "j"].
Proof.
  exact (proj2 (proj2 (X8_counting_loop_bindings 5 (Examples.ident 9 "i")
                         [Examples.ident 12 "j"]
                         [OtherNode 17 []; OtherNode 20 []]
                         None None (BlockStmt 25 [])))
           [mkIdent 9 "i"; mkIdent 12 "j"] eq_refl).
Defined.

(** X9.  For a collection loop whose key (or value) is present but is
    neither an identifier nor a selector, the extractor yields a nil
    identifier, whose object is nil; every identifier without an object is
    then taken for a loop variable by the capture checker. *)
Theorem X9_collection_loop_nil_entry pass For key Value X Body :
  exprToIdent (Some key) = None ->
  exists objs,
    getLoopNodeIdentifiersObjects pass (RangeStmt For (Some key) Value X Body)
    = ret (None :: objs)
    /\ forall id, Objects pass id = None ->
                  isLoopVar pass (None :: objs) id = true.
Proof.
  intros Hkey. unfold getLoopNodeIdentifiersObjects.
  cbn [getLoopVarsIdentifiers]. unfold slices.Map, slices.Filter.
  cbn [filter isNonNilExpr map]. rewrite Hkey, bind_ret_l.
  cbn [map ObjectOf]. eexists. split; [reflexivity|].
  intros id Hid. unfold isLoopVar. cbn [existsb]. rewrite Hid. reflexivity.
Qed.

(** X9 at a loop whose key is an index expression, [for a[i] = range items { }]. *)
Lemma X9_collection_loop_nil_entry_witness :
  exists objs,
    getLoopNodeIdentifiersObjects Examples.pass
      (RangeStmt 5 (Some (OtherNode 9 [])) None (Examples.ident 20 "items")
         (BlockStmt 25 []))
    = ret (None :: objs)
    /\ forall id, Objects Examples.pass id = None ->
                  isLoopVar Examples.pass (None :: objs) id = true.
Proof.
  exact (@X9_collection_loop_nil_entry Examples.pass 5 (OtherNode 9 []) None
           (Examples.ident 20 "items") (BlockStmt 25 []) eq_refl).
Defined.

(** ** What the checks report *)

Lemma ret_inj (A : Type) (a b : A) : ret a = ret b -> a = b.
Proof. intros H. inversion H. reflexivity. Qed.

(** X10.  Every diagnostic of the Subtest check is the parallel-test
    message at an identifier that resolves to one of the objects of the
    loop, and every diagnostic of the Spec check is the Ginkgo message at
    such an identifier; neither check reports anything else. *)
Theorem X10_checks_report_loop_variables pass loopNode d :
  (In d (reported (checkAndReportLoop pass loopNode)) ->
   exists objs id,
     getLoopNodeIdentifiersObjects pass loopNode = ret objs
     /\ isLoopVar pass objs id = true /\ d = goTestDiagnostic id)
  /\ (In d (reported (checkAndReportLoopGinkgo pass loopNode)) ->
      exists objs id,
        getLoopNodeIdentifiersObjects pass loopNode = ret objs
        /\ isLoopVar pass objs id = true /\ d = ginkgoDiagnostic id).
Proof.
  split; intros H.
  - destruct (checkAndReportLoop_shape pass loopNode)
      as [[r E] | [E | (objs & marker & closure & Eobjs & E)]];
      rewrite E in H; try contradiction.
    cbn [reported fst] in H. apply in_map_iff in H. destruct H as (id & <- & Hid).
    unfold capturedIdentsAfter in Hid. apply filter_In in Hid.
    destruct Hid as [_ Hid]. apply andb_true_iff in Hid.
    exists objs, id. intuition.
  - destruct (checkAndReportLoopGinkgo_shape pass loopNode)
      as [[r E] | [E | (objs & closure & Eobjs & E)]];
      rewrite E in H; try contradiction.
    cbn [reported fst] in H. apply in_map_iff in H. destruct H as (id & <- & Hid).
    unfold capturedIdents in Hid. apply filter_In in Hid.
    exists objs, id. intuition.
Qed.

(** X10 at the loop
    [for i, v := range items { t.Run(name, func(t *testing.T) { t.Parallel(); use(v) }) }]. *)
Lemma X10_checks_report_loop_variables_witness :
  exists objs id,
    getLoopNodeIdentifiersObjects Examples.pass Examples.parallelLoop = ret objs
    /\ isLoopVar Examples.pass objs id = true
    /\ goTestDiagnostic (mkIdent 79 "v") = goTestDiagnostic id.
Proof.
  exact (proj1 (X10_checks_report_loop_variables Examples.pass Examples.parallelLoop
                  (goTestDiagnostic (mkIdent 79 "v")))
           (or_introl eq_refl)).
Defined.

(** X11.  A loop that binds nothing gets no loop-variable diagnostic,
    whatever its body holds. *)
Theorem X11_loop_without_variables pass loopNode :
  getLoopNodeIdentifiersObjects pass loopNode = ret [] ->
  reported (checkAndReportLoop pass loopNode) = []
  /\ reported (checkAndReportLoopGinkgo pass loopNode) = [].
Proof.
  intros Hobjs. split.
  - destruct (checkAndReportLoop_shape pass loopNode)
      as [[r E] | [E | (objs & marker & closure & Eobjs & E)]];
      rewrite E; try reflexivity.
    rewrite Hobjs in Eobjs. apply ret_inj in Eobjs. subst objs.
    cbn [reported fst]. unfold capturedIdentsAfter.
    rewrite filter_none; [reflexivity|]. intros id _. apply andb_false_r.
  - destruct (checkAndReportLoopGinkgo_shape pass loopNode)
      as [[r E] | [E | (objs & closure & Eobjs & E)]];
      rewrite E; try reflexivity.
    rewrite Hobjs in Eobjs. apply ret_inj in Eobjs. subst objs.
    cbn [reported fst]. unfold capturedIdents.
    rewrite filter_none; [reflexivity|]. intros id _. reflexivity.
Qed.

(** X11 at the loop
    [for range items { t.Run(name, func(t *testing.T) { t.Parallel(); use(v) }) }]. *)
Lemma X11_loop_without_variables_witness :
  reported (checkAndReportLoop Examples.pass Examples.noVarsLoop) = [].
Proof.
  exact (proj1 (@X11_loop_without_variables Examples.pass Examples.noVarsLoop eq_refl)).
Defined.

(** ** The run over the files *)

Lemma checkAndReportLoop_fault_silent pass loopNode r :
  outcome (checkAndReportLoop pass loopNode) = Panicked r ->
  checkAndReportLoop pass loopNode = panic r.
Proof.
  intros H.
  destruct (checkAndReportLoop_shape pass loopNode)
    as [[r' E] | [E | (objs & marker & closure & _ & E)]];
    rewrite E in H |- *; inversion H; reflexivity.
Qed.

Lemma checkAndReportLoopGinkgo_fault_silent pass loopNode r :
  outcome (checkAndReportLoopGinkgo pass loopNode) = Panicked r ->
  checkAndReportLoopGinkgo pass loopNode = panic r.
Proof.
  intros H.
  destruct (checkAndReportLoopGinkgo_shape pass loopNode)
    as [[r' E] | [E | (objs & closure & _ & E)]];
    rewrite E in H |- *; inversion H; reflexivity.
Qed.

(** X12.  Neither check reports and faults at once, so what the function
    run on a loop reports is: the fault of the Subtest check alone when
    that check faults; otherwise the Subtest diagnostics followed by the
    fault of the Spec check when that one faults, and by the Spec
    diagnostics when it does not. *)
Theorem X12_checkLoopNode_report pass loopNode :
  checkLoopNode pass loopNode =
  (match outcome (checkAndReportLoop pass loopNode) with
   | Panicked r => [panicDiagnostic loopNode r]
   | Returned _ =>
       reported (checkAndReportLoop pass loopNode)
       ++ match outcome (checkAndReportLoopGinkgo pass loopNode) with
          | Panicked r => [panicDiagnostic loopNode r]
          | Returned _ => reported (checkAndReportLoopGinkgo pass loopNode)
          end
   end, Returned tt).
Proof.
  unfold checkLoopNode.
  destruct (outcome (checkAndReportLoop pass loopNode)) as [[]|r] eqn:EA.
  - rewrite (M_eta (checkAndReportLoop pass loopNode)), EA. cbn [bind].
    destruct (outcome (checkAndReportLoopGinkgo pass loopNode)) as [[]|r] eqn:EB.
    + rewrite (M_eta (checkAndReportLoopGinkgo pass loopNode)), EB. reflexivity.
    + rewrite (checkAndReportLoopGinkgo_fault_silent _ _ EB). cbn.
      rewrite app_nil_r. reflexivity.
  - rewrite (checkAndReportLoop_fault_silent _ _ EA). reflexivity.
Qed.

(** X13.  The run over the files never faults, and what it reports for
    two lists of files one after the other is what it reports for the
    first followed by what it reports for the second. *)
Theorem X13_findIgnoredTests_files pass files1 files2 :
  findIgnoredTests pass (files1 ++ files2) =
  (reported (findIgnoredTests pass files1) ++ reported (findIgnoredTests pass files2),
   Returned tt).
Proof.
  unfold findIgnoredTests.
  rewrite !forEach_checkLoopNode, flat_map_app, filter_app, flat_map_app.
  reflexivity.
Qed.

(** X14.  No loop is passed over: a counting or collection loop anywhere
    in a file, at whatever depth and inside whatever declaration, is
    checked, and all that its check reports is part of the report of the
    run. *)
Theorem X14_every_loop_is_checked pass files file loopNode d :
  In file files -> In loopNode (preorder file) -> isLoop loopNode = true ->
  In d (reported (checkLoopNode pass loopNode)) ->
  In d (reported (findIgnoredTests pass files)).
Proof.
  intros Hfile Hin Hloop Hd. unfold findIgnoredTests.
  rewrite forEach_checkLoopNode. cbn [reported fst].
  apply in_flat_map. exists loopNode. split; [|exact Hd].
  apply filter_In. split; [|exact Hloop].
  apply in_flat_map. exists file. auto.
Qed.

(** X14 at a file where the parallel loop lies inside a counting loop. *)
Lemma X14_every_loop_is_checked_witness :
  In (goTestDiagnostic (mkIdent 79 "v"))
     (reported (findIgnoredTests Examples.pass [Examples.nestedFile])).
Proof.
  refine (@X14_every_loop_is_checked Examples.pass [Examples.nestedFile]
            Examples.nestedFile Examples.parallelLoop
            (goTestDiagnostic (mkIdent 79 "v"))
            (or_introl eq_refl) _ eq_refl (or_introl eq_refl)).
  cbn. auto 6.
Defined.

(** ** The report of the Subtest check *)

(** X15.  For a loop whose matched [Run] call has a function literal as
    second argument: when no node of the closure body is a call of
    [Parallel] on a test context, the check reports nothing; when the
    search of the closure body returns a call, that call is a call of
    [Parallel] on a test context inside the closure body, and the check
    reports one diagnostic for each identifier of the closure that resolves
    to an object of the loop and lies after the position of that call,
    nothing at or before it; and when the closure body holds exactly one
    such call and every receiver in it resolves, that call is the marker. *)
Theorem X15_subtest_report pass loopNode body objs runCall closure :
  getLoopNodeIdentifiersObjects pass loopNode = ret objs ->
  getLoopBody loopNode = Some body ->
  outcome (findTestingTCalls pass body "Run") = Returned (Some runCall) ->
  nth_error (CallArgs runCall) 1 = Some (funcLitNode closure) ->
  (noneOf (isTestingTCall pass "Parallel") (FuncLitBody closure) = true ->
   reported (checkAndReportLoop pass loopNode) = [])
  /\ (forall parallelCall,
        outcome (findTestingTCalls pass (FuncLitBody closure) "Parallel")
          = Returned (Some parallelCall) ->
        In (callNode parallelCall) (preorder (FuncLitBody closure))
        /\ isTestingTCall pass "Parallel" (callNode parallelCall) = true
        /\ checkAndReportLoop pass loopNode =
           (map goTestDiagnostic
              (filter (fun id => (NodePos (callNode parallelCall) <? NamePos id)
                                 && isLoopVar pass objs id)
                 (identsOf (funcLitNode closure))),
            Returned tt))
  /\ (forall x,
        In x (preorder (FuncLitBody closure)) ->
        isTestingTCall pass "Parallel" x = true ->
        (forall y, In y (preorder (FuncLitBody closure)) ->
                   isTestingTCall pass "Parallel" y = true -> y = x) ->
        forallb (receiverResolves pass) (preorder (FuncLitBody closure)) = true ->
        checkAndReportLoop pass loopNode =
        (map goTestDiagnostic
           (filter (fun id => (NodePos x <? NamePos id) && isLoopVar pass objs id)
              (identsOf (funcLitNode closure))),
         Returned tt)).
Proof.
  intros Hobjs Hbody Hrun Hargs.
  rewrite (checkAndReportLoop_closure _ _ Hobjs Hbody Hrun Hargs).
  assert (Hfound : forall parallelCall,
            outcome (findTestingTCalls pass (FuncLitBody closure) "Parallel")
              = Returned (Some parallelCall) ->
            (parallelTokenPos <- isParallelFunctionClosure pass closure ;;
             match parallelTokenPos with
             | None => ret tt
             | Some marker =>
                 Inspect (checkAndReportLoopVisit pass objs marker)
                   (funcLitNode closure) tt
             end)
            = (map goTestDiagnostic
                 (filter (fun id => (NodePos (callNode parallelCall) <? NamePos id)
                                    && isLoopVar pass objs id)
                    (identsOf (funcLitNode closure))),
               Returned tt)).
  { intros parallelCall Hp. unfold isParallelFunctionClosure.
    rewrite (@silent_returned _ _ _
               (findTestingTCalls_silent pass (FuncLitBody closure) "Parallel") Hp).
    rewrite !bind_ret_l. apply Inspect_checkAndReportLoopVisit. }
  split; [|split].
  - intros Hnone. rewrite noneOf_spec in Hnone.
    pose proof (isParallelFunctionClosure_silent pass closure) as Hsilent.
    destruct (isParallelFunctionClosure pass closure) as [d [[marker|] | r]] eqn:E;
      cbn in Hsilent; subst d; try reflexivity.
    exfalso. unfold isParallelFunctionClosure in E.
    destruct (findTestingTCalls pass (FuncLitBody closure) "Parallel")
      as [d [[c|] | r]] eqn:Ef; try discriminate E.
    assert (Ho : outcome (findTestingTCalls pass (FuncLitBody closure) "Parallel")
                 = Returned (Some c)) by (rewrite Ef; reflexivity).
    destruct (@findTestingTCalls_sound _ _ _ _ Ho) as [Hin Hm].
    rewrite (Hnone _ Hin) in Hm. discriminate Hm.
  - intros parallelCall Hp.
    destruct (@findTestingTCalls_sound _ _ _ _ Hp) as [Hin Hm].
    split; [exact Hin|]. split; [exact Hm|]. exact (Hfound _ Hp).
  - intros x Hx Hm Huniq Hres.
    destruct (findTestingTCalls_returns pass (FuncLitBody closure) "Parallel" Hres)
      as [result E].
    assert (Ho : outcome (findTestingTCalls pass (FuncLitBody closure) "Parallel")
                 = Returned result) by (rewrite E; reflexivity).
    destruct result as [c|].
    + destruct (@findTestingTCalls_sound _ _ _ _ Ho) as [Hin Hc].
      rewrite <- (Huniq _ Hin Hc). exact (Hfound _ Ho).
    + exfalso. apply (@findTestingTCalls_complete _ _ _ _ Ho); eauto.
Qed.

(** X15 at the loop
    [for i, v := range items {
       t.Run(name, func(t *testing.T) { use(v); t.Parallel(); use(v) }) }]:
    the [v] at position 64, before the marker at 66, is a loop variable
    and is not reported; the [v] at position 84 is. *)
Lemma X15_subtest_report_witness :
  isLoopVar Examples.pass [Some 2%nat; Some 3%nat] (mkIdent 64 "v") = true
  /\ In (mkIdent 64 "v") (identsOf (funcLitNode Examples.beforeAfterClosureLit))
  /\ checkAndReportLoop Examples.pass Examples.beforeAfterLoop
     = ([goTestDiagnostic (mkIdent 84 "v")], Returned tt).
Proof.
  split; [reflexivity|]. split; [cbn; auto 10|].
  exact (proj2 (proj2
           (proj1 (proj2
              (@X15_subtest_report Examples.pass Examples.beforeAfterLoop
                 (BlockStmt 25 [ExprStmt (callNode Examples.beforeAfterRunCall)])
                 [Some 2%nat; Some 3%nat]
                 Examples.beforeAfterRunCall Examples.beforeAfterClosureLit
                 eq_refl eq_refl eq_refl eq_refl))
              (mkCall (SelectorExpr (Examples.ident 66 "t") (mkIdent 68 "Parallel")) [])
              eq_refl))).
Defined.

(** X16.  The capture checker reports at a node exactly when the node is an
    identifier whose resolved object, a missing object counting as a value
    of its own, is among the objects of the loop.  The name plays no part:
    identifiers that resolve alike are treated alike whatever they are
    called, and a closure none of whose identifiers resolves to an object of
    the loop (a local that carries the name of a loop variable is such an
    identifier) gets no diagnostic, on the Spec path and, whatever the
    marker, on the Subtest path. *)
Theorem X16_objects_not_names pass objs :
  (forall node message,
     reported (checkAndReportLoopIdentifierObject pass objs node message) <> []
     <-> exists id, node = Some (NIdent id) /\ In (Objects pass id) objs)
  /\ (forall p q name name' message,
        Objects pass (mkIdent p name) = Objects pass (mkIdent q name') ->
        (reported (checkAndReportLoopIdentifierObject pass objs
                     (Some (NIdent (mkIdent p name))) message) = []
         <-> reported (checkAndReportLoopIdentifierObject pass objs
                         (Some (NIdent (mkIdent q name'))) message) = []))
  /\ (forall closure,
        (forall id, In id (identsOf closure) -> ~ In (Objects pass id) objs) ->
        Inspect (checkAndReportLoopGinkgoVisit pass objs) closure tt
          = ([], Returned tt)
        /\ forall marker,
             Inspect (checkAndReportLoopVisit pass objs marker) closure tt
               = ([], Returned tt)).
Proof.
  assert (Hid : forall id message,
            reported (checkAndReportLoopIdentifierObject pass objs
                        (Some (NIdent id)) message) <> []
            <-> In (Objects pass id) objs).
  { intros id message. rewrite checkAndReportLoopIdentifierObject_ident.
    rewrite <- isLoopVar_In. destruct (isLoopVar pass objs id); cbn; split;
      intros H; try reflexivity; try discriminate. contradiction. }
  split; [|split].
  - intros node message. split.
    + intros H.
      destruct node as [[id| | | | | | | | | | | |]|];
        try (exfalso; apply H; reflexivity).
      exists id. split; [reflexivity|]. apply (Hid id message). exact H.
    + intros (id & -> & Hin). apply Hid. exact Hin.
  - intros p q name name' message Heq.
    rewrite !checkAndReportLoopIdentifierObject_ident.
    unfold isLoopVar. rewrite Heq.
    destruct (existsb _ objs); cbn; split; intros H; try reflexivity;
      discriminate H.
  - intros closure Hnone.
    assert (Hf : forall id, In id (identsOf closure) -> isLoopVar pass objs id = false).
    { intros id Hin. destruct (isLoopVar pass objs id) eqn:E; [|reflexivity].
      apply isLoopVar_In in E. destruct (Hnone id Hin E). }
    split.
    + rewrite Inspect_checkAndReportLoopGinkgoVisit. unfold capturedIdents.
      rewrite (filter_none _ _ Hf). reflexivity.
    + intros marker. rewrite Inspect_checkAndReportLoopVisit.
      unfold capturedIdentsAfter. rewrite filter_none; [reflexivity|].
      intros id Hin. rewrite (Hf id Hin). apply andb_false_r.
Qed.

(** X16 at the closure [func() { v := 1; use(v) }] inside a loop that binds
    [i] and [v]: the two [v] of the closure resolve to its own local. *)
Lemma X16_objects_not_names_witness :
  map Name (identsOf Examples.shadowClosure) = ["v"; "use"; "v"]
  /\ Inspect (checkAndReportLoopGinkgoVisit Examples.pass [Some 2%nat; Some 3%nat])
       Examples.shadowClosure tt = ([], Returned tt).
Proof.
  split; [reflexivity|].
  refine (proj1 (proj2 (proj2 (X16_objects_not_names Examples.pass
                                 [Some 2%nat; Some 3%nat]))
                   Examples.shadowClosure _)).
  intros id Hin. cbn in Hin.
  destruct Hin as [<- | [<- | [<- | []]]]; cbn;
    intros [H | [H | []]]; discriminate H.
Defined.
